(** * waba: the request pipeline, the webhook pipeline and the broadcast
      dispatcher of the WhatsApp Cloud API client

    A shallow embedding of [src/errors.ts], [src/webhook.ts] and of the
    [WhatsApp] client class ([request], [sendMessage], [sendTemplate],
    [broadcastTemplate]), followed by the properties of these functions.

    Part I holds the definitions, Part II the theorems. *)

From Stdlib Require Import ZArith String Ascii Bool Lia DecimalString.
From stdpp Require Import base option list strings gmap.

Local Open Scope Z_scope.

(* ===================================================================== *)
(** * Part I: definitions                                                 *)
(* ===================================================================== *)

(** ** JavaScript values

    The functions under study receive data that was decoded from JSON and
    is then read without any run-time type check (TypeScript's types are
    erased, and [parseWebhook] takes [unknown], [fromApiResponse] takes
    [any]).  The model is therefore the untyped one.

    Modelling domain:
    - numbers are the safe integers, those of magnitude below 2^53 (vendor
      codes are), which JavaScript prints in decimal; what is said about
      the string form of a number read from a document is said under
      [safe_integer] or [plain];
    - an object is the list of its own data properties, each name at most
      once;
    - two objects or arrays that sit at different places of a decoded
      document are different references, so [===] between them is false. *)
Module JS.

Local Unset Elimination Schemes.
Inductive JSValue : Type :=
| JUndefined
| JNull
| JBool (b : bool)
| JNum (n : Z)
| JStr (s : string)
| JArr (elems : list JSValue)
| JObj (props : list (string * JSValue)).
Local Set Elimination Schemes.

(** [typeof v !== "object"] is true of everything but [null], arrays and
    objects. *)
Definition typeof_object (v : JSValue) : bool :=
  match v with
  | JNull | JArr _ | JObj _ => true
  | _ => false
  end.

(** [v == null]: [null] or [undefined]. *)
Definition nullish (v : JSValue) : bool :=
  match v with
  | JUndefined | JNull => true
  | _ => false
  end.

(** ToBoolean. *)
Definition truthy (v : JSValue) : bool :=
  match v with
  | JUndefined | JNull => false
  | JBool b => b
  | JNum n => negb (n =? 0)
  | JStr s => negb (String.eqb s "")
  | JArr _ | JObj _ => true
  end.

Definition isArray (v : JSValue) : bool :=
  match v with
  | JArr _ => true
  | _ => false
  end.

(** [a === b]. *)
Definition strict_eq (a b : JSValue) : bool :=
  match a, b with
  | JUndefined, JUndefined => true
  | JNull, JNull => true
  | JBool x, JBool y => Bool.eqb x y
  | JNum x, JNum y => x =? y
  | JStr x, JStr y => String.eqb x y
  | _, _ => false
  end.

(** [a || b] and [a ?? b] on values. *)
Definition or_else (a b : JSValue) : JSValue := if truthy a then a else b.
Definition coalesce (a b : JSValue) : JSValue := if nullish a then b else a.

Fixpoint lookup_prop (k : string) (props : list (string * JSValue)) : JSValue :=
  match props with
  | [] => JUndefined
  | (k', v) :: rest => if String.eqb k k' then v else lookup_prop k rest
  end.

(** [v.k] where [v] is known not to be [null] or [undefined], for the
    property names this code reads ([length] and array indices are not
    among them): a primitive or an array has no such property. *)
Definition prop (v : JSValue) (k : string) : JSValue :=
  match v with
  | JObj props => lookup_prop k props
  | _ => JUndefined
  end.

(** [v?.k]. *)
Definition opt_prop (v : JSValue) (k : string) : JSValue :=
  if nullish v then JUndefined else prop v k.

Definition string_of_Z (n : Z) : string := NilZero.string_of_int (Z.to_int n).

Fixpoint join (sep : string) (parts : list string) : string :=
  match parts with
  | [] => ""
  | [s] => s
  | s :: rest => String.append s (String.append sep (join sep rest))
  end.

(** [hay.includes(needle)]. *)
Fixpoint includes (needle hay : string) : bool :=
  if String.prefix needle hay then true
  else match hay with
       | EmptyString => false
       | String _ rest => includes needle rest
       end.

End JS.
Export JS.

(** ** src/errors.ts *)
Module Errors.

Record WhatsAppError : Type := mkWhatsAppError {
  message : string;
  code : JSValue;
  title : string;
  httpStatus : Z;
  details : option string
}.

(** [const err = body?.error || {}]. *)
Definition error_block (body : JSValue) : JSValue :=
  or_else (opt_prop body "error") (JObj []).

End Errors.
Export Errors.

(** ** Thrown values and the error monad *)
Module Exn.

Inductive Thrown : Type :=
| TypeError
| SyntaxError
| PlainError (msg : string)
| ApiError (e : WhatsAppError).

Inductive result (A : Type) : Type :=
| Ok (a : A)
| Throw (t : Thrown).
Arguments Ok {A} a.
Arguments Throw {A} t.

Definition bind {A B} (r : result A) (k : A -> result B) : result B :=
  match r with
  | Ok a => k a
  | Throw t => Throw t
  end.

End Exn.
Export Exn.

Notation "'try' x <- e ; k" := (bind e (fun x => k))
  (at level 10, x name, e at level 100, k at level 200, only parsing).

(** ** Conversion to a string *)
Module Conversion.

(** [Number.isSafeInteger]: between [-(2^53)] and [2^53], both excluded. *)
Definition safe_integer (n : Z) : bool :=
  (- 2 ^ 53 <? n) && (n <? 2 ^ 53).

(** An object that has a property of its own named [toString].  In a
    decoded document such a property is never a function. *)
Definition shadows_toString (props : list (string * JSValue)) : bool :=
  existsb (fun kv => String.eqb "toString" (fst kv)) props.

(** ToString, as used by a template literal, by [String(v)] and by the
    [Error] constructor on its message.
    - An array is joined with commas, a [null] or [undefined] element
      giving the empty string and any other one its own string form.
    - An object is converted through its [toString] and [valueOf]: the
      inherited [toString] gives ["[object Object]"]; with an own
      [toString] property, which is not callable, [valueOf] is tried, and
      whether that is an own property (not callable) or the inherited one
      (which returns the object), no primitive comes out and the
      conversion throws a [TypeError].
    - A number is printed in decimal, which is the form JavaScript gives
      a safe integer. *)
Fixpoint to_string (v : JSValue) : result string :=
  match v with
  | JUndefined => Ok "undefined"%string
  | JNull => Ok "null"%string
  | JBool true => Ok "true"%string
  | JBool false => Ok "false"%string
  | JNum n => Ok (string_of_Z n)
  | JStr s => Ok s
  | JArr elems =>
      try parts <-
        (fix each (es : list JSValue) : result (list string) :=
           match es with
           | [] => Ok []
           | e :: rest =>
               try s <- (if nullish e then Ok ""%string else to_string e);
               try ss <- each rest;
               Ok (s :: ss)
           end) elems;
      Ok (join "," parts)
  | JObj props =>
      if shadows_toString props then Throw TypeError
      else Ok "[object Object]"%string
  end.

(** The values whose string form the model gives: the conversion does not
    throw, and the numbers it prints are safe integers. *)
Fixpoint plain (v : JSValue) : bool :=
  match v with
  | JNum n => safe_integer n
  | JArr elems => forallb (fun e => nullish e || plain e) elems
  | JObj props => negb (shadows_toString props)
  | _ => true
  end.

(** The string form of a value that has one. *)
Definition string_form (v : JSValue) : string :=
  match to_string v with
  | Ok s => s
  | Throw _ => ""%string
  end.

End Conversion.
Export Conversion.

(** ** src/errors.ts: the builder *)
Module ErrorBuilder.

(** The constructor: [super(options.message)] converts the message to a
    string, which may throw; the other fields are stored as given. *)
Definition new_WhatsAppError
    (msg : JSValue) (c : JSValue) (t : string) (st : Z) (d : option string)
  : result WhatsAppError :=
  try m <- to_string msg;
  Ok (mkWhatsAppError m c t st d).

(** The fields of the options object are computed in the order they are
    written, then the constructor runs. *)
Definition fromApiResponse (body : JSValue) (http : Z) : result WhatsAppError :=
  let err := error_block body in
  let msg := or_else (prop err "message") (JStr "Unknown WhatsApp API error") in
  let c := or_else (prop err "code") (JNum 0) in
  try t <-
    (if truthy (prop err "error_subcode")
     then
       try sc <- to_string (prop err "code");
       try ss <- to_string (prop err "error_subcode");
       Ok (sc +:+ "/" +:+ ss)
     else to_string (or_else (prop err "code") (JStr "unknown")));
  try d <-
    (if truthy (prop err "fbtrace_id")
     then
       try id <- to_string (prop err "fbtrace_id");
       Ok (Some ("fbtrace_id: " +:+ id))
     else Ok None);
  new_WhatsAppError msg c t http d.

End ErrorBuilder.
Export ErrorBuilder.

(** Reading a property throws a [TypeError] on [null] and [undefined]. *)
Definition get (v : JSValue) (k : string) : result JSValue :=
  if nullish v then Throw TypeError else Ok (prop v k).

(** What [for (const x of v)] iterates over: the elements of an array, the
    characters of a string; any other decoded value is not iterable. *)
Definition iterate (v : JSValue) : result (list JSValue) :=
  match v with
  | JArr elems => Ok elems
  | JStr s => Ok (map (fun c => JStr (String c EmptyString)) (list_ascii_of_string s))
  | _ => Throw TypeError
  end.

(** The body of a [for ... of] loop run over the elements in order, on a
    state that the body updates; a throw leaves the loop. *)
Fixpoint for_of {S : Type} (xs : list JSValue)
    (body : JSValue -> S -> result S) (st : S) : result S :=
  match xs with
  | [] => Ok st
  | x :: rest => try st' <- body x st; for_of rest body st'
  end.

(** [Array.prototype.find]: the first element on which the callback
    answers true, [undefined] when there is none. *)
Fixpoint array_find (xs : list JSValue) (p : JSValue -> result bool)
  : result JSValue :=
  match xs with
  | [] => Ok JUndefined
  | x :: rest => try b <- p x; if b then Ok x else array_find rest p
  end.

Definition array_length (v : JSValue) : Z :=
  match v with
  | JArr elems => Z.of_nat (length elems)
  | _ => 0
  end.

(** ** src/webhook.ts *)
Module Webhook.

Record VerifyQuery : Type := mkVerifyQuery {
  hub_mode : option string;
  hub_verify_token : option string;
  hub_challenge : option string
}.

(** [field === s] for an optional string field. *)
Definition field_is (field : option string) (s : string) : bool :=
  match field with
  | Some x => String.eqb x s
  | None => false
  end.

(** Truthiness of an optional string field: defined and not empty. *)
Definition field_truthy (field : option string) : bool :=
  match field with
  | Some x => negb (String.eqb x "")
  | None => false
  end.

Definition verification_failed : Thrown :=
  PlainError "Webhook verification failed".

Definition verifyWebhook (query : VerifyQuery) (verifyToken : string)
  : result string :=
  let mode := hub_mode query in
  let token := hub_verify_token query in
  let challenge := hub_challenge query in
  if field_is mode "subscribe" && field_is token verifyToken
     && field_truthy challenge
  then match challenge with
       | Some c => Ok c
       | None => Throw verification_failed
       end
  else Throw verification_failed.

Inductive WebhookEvent : Type :=
| MessageEvent (message contact metadata : JSValue)
| StatusEvent (status metadata : JSValue)
| ErrorEvent (errors metadata : JSValue).

Definition isValidPayload (body : JSValue) : bool :=
  if nullish body || negb (typeof_object body) then false
  else if negb (strict_eq (prop body "object") (JStr "whatsapp_business_account"))
  then false
  else if negb (isArray (prop body "entry")) then false
  else true.

Definition synthetic_contact (from : JSValue) : JSValue :=
  JObj [("profile", JObj [("name", JStr "")]); ("wa_id", from)]%string.

(** [contacts.find] exists on arrays only. *)
Definition findContact (contacts from : JSValue) : result JSValue :=
  match contacts with
  | JArr cs =>
      try found <- array_find cs
            (fun c => try w <- get c "wa_id"; Ok (strict_eq w from));
      if truthy found then Ok found
      else if 0 <? array_length contacts
      then Ok (nth 0 cs JUndefined)
      else Ok (synthetic_contact from)
  | _ => Throw TypeError
  end.

(** The body of the inner loop of [parseWebhook]: one change, appended to
    the events collected so far. *)
Definition parseChange (change : JSValue) (events : list WebhookEvent)
  : result (list WebhookEvent) :=
  try value <- get change "value";
  try metadata <- get value "metadata";
  try events <-
    (if truthy (prop value "messages") && isArray (prop value "messages")
     then
       let contacts := coalesce (prop value "contacts") (JArr []) in
       try msgs <- iterate (prop value "messages");
       for_of msgs
         (fun msg evs =>
            try from <- get msg "from";
            try contact <- findContact contacts from;
            Ok (evs ++ [MessageEvent msg contact metadata]))
         events
     else Ok events);
  try events <-
    (if truthy (prop value "statuses") && isArray (prop value "statuses")
     then
       try sts <- iterate (prop value "statuses");
       for_of sts
         (fun status evs => Ok (evs ++ [StatusEvent status metadata]))
         events
     else Ok events);
  if truthy (prop value "errors") && isArray (prop value "errors")
     && (0 <? array_length (prop value "errors"))
  then Ok (events ++ [ErrorEvent (prop value "errors") metadata])
  else Ok events.

Definition parseEntry (entry : JSValue) (events : list WebhookEvent)
  : result (list WebhookEvent) :=
  try cs <- get entry "changes";
  try changes <- iterate cs;
  for_of changes parseChange events.

Definition parseWebhook (body : JSValue) : result (list WebhookEvent) :=
  if negb (isValidPayload body) then Ok []
  else
    try es <- get body "entry";
    try entries <- iterate es;
    for_of entries parseEntry [].

(** *** Signature check

    [validateSignature] and [parseWebhookWithSignature] are exported by
    the repository's [webhook.ts] (the client class and the tests import
    them) but this version of the file predates them.  The hash and the
    JSON decoder are those of the platform and are parameters. *)
Section Signature.

(** [createHmac("sha256", secret).update(body).digest("hex")] *)
Variable hmac_sha256_hex : string -> string -> string.
(** [JSON.parse] *)
Variable json_parse : string -> result JSValue.

(** Modelled from the spec: [validateSignature] of webhook.ts is missing
    from the sources.  It computes the SHA-256 HMAC of the body under the
    secret, hex-encodes it, prefixes ["sha256="] and compares with the
    header by exact string equality. *)
Definition validateSignature (rawBody signature appSecret : string) : bool :=
  String.eqb signature
    (String.append "sha256=" (hmac_sha256_hex appSecret rawBody)).

Definition invalid_signature : Thrown :=
  PlainError "Invalid webhook signature".

(** Modelled from the spec: [parseWebhookWithSignature] of webhook.ts is
    missing from the sources.  It performs the check and, only if it
    passes, forwards the decoded body to [parseWebhook]; on failure it
    raises the invalid-signature error. *)
Definition parseWebhookWithSignature (rawBody signature appSecret : string)
  : result (list WebhookEvent) :=
  if validateSignature rawBody signature appSecret
  then try body <- json_parse rawBody; parseWebhook body
  else Throw invalid_signature.

End Signature.

End Webhook.
Export Webhook.

(** ** src/types.ts: the declared shape of a webhook delivery

    The records follow the interfaces [Metadata], [Contact],
    [InboundMessageBase] and [RawWebhookPayload]; [*_js] gives the decoded
    JSON document of a record, which is what [parseWebhook] receives. *)
Module Types.

Record Metadata : Type := mkMetadata {
  display_phone_number : string;
  phone_number_id : string
}.

Record Contact : Type := mkContact {
  profile_name : string;
  wa_id : string
}.

(** [InboundMessageBase & { type: string }], with the fields of the
    content kind kept as they came. *)
Record InboundMessage : Type := mkInboundMessage {
  from : string;
  id : string;
  timestamp : string;
  type : string;
  content : list (string * JSValue)
}.

(** The [value] block of a change; [statuses] is [any[]] and [errors] is
    only tested for its length, so both stay untyped. *)
Record RawValue : Type := mkRawValue {
  messaging_product : string;
  metadata : Metadata;
  contacts : option (list Contact);
  messages : option (list InboundMessage);
  statuses : option (list JSValue);
  errors : option (list JSValue)
}.

Record RawChange : Type := mkRawChange {
  value : RawValue;
  field : string
}.

Record RawEntry : Type := mkRawEntry {
  entry_id : string;
  changes : list RawChange
}.

Record RawWebhookPayload : Type := mkRawWebhookPayload {
  object : string;
  entry : list RawEntry
}.

Definition metadata_js (m : Metadata) : JSValue :=
  JObj [("display_phone_number", JStr (display_phone_number m));
        ("phone_number_id", JStr (phone_number_id m))]%string.

Definition contact_js (c : Contact) : JSValue :=
  JObj [("profile", JObj [("name", JStr (profile_name c))]);
        ("wa_id", JStr (wa_id c))]%string.

Definition message_js (m : InboundMessage) : JSValue :=
  JObj ([("from", JStr (from m)); ("id", JStr (id m));
         ("timestamp", JStr (timestamp m)); ("type", JStr (type m))]%string
        ++ content m).

(** An optional property is left out of the object when it is absent. *)
Definition optional (k : string) (v : option JSValue)
  : list (string * JSValue) :=
  match v with
  | Some x => [(k, x)]
  | None => []
  end.

Definition value_js (v : RawValue) : JSValue :=
  JObj ([("messaging_product", JStr (messaging_product v));
         ("metadata", metadata_js (metadata v))]%string
        ++ optional "contacts" (JArr ∘ map contact_js <$> contacts v)
        ++ optional "messages" (JArr ∘ map message_js <$> messages v)
        ++ optional "statuses" (JArr <$> statuses v)
        ++ optional "errors" (JArr <$> errors v)).

Definition change_js (c : RawChange) : JSValue :=
  JObj [("value", value_js (value c)); ("field", JStr (field c))]%string.

Definition entry_js (e : RawEntry) : JSValue :=
  JObj [("id", JStr (entry_id e));
        ("changes", JArr (map change_js (changes e)))]%string.

Definition payload_js (p : RawWebhookPayload) : JSValue :=
  JObj [("object", JStr (object p));
        ("entry", JArr (map entry_js (entry p)))]%string.

End Types.
Export Types.

(** ** The client class: request pipeline and broadcast dispatcher *)
Module Client.

Definition DEFAULT_API_VERSION : string := "v25.0".
Definition GRAPH_URL : string := "https://graph.facebook.com".

(** [o || d] for an optional string. *)
Definition str_or (o : option string) (d : string) : string :=
  match o with
  | Some x => if String.eqb x "" then d else x
  | None => d
  end.

Record WhatsAppConfig : Type := mkWhatsAppConfig {
  cfg_phoneNumberId : string;
  cfg_accessToken : string;
  cfg_apiVersion : option string;
  cfg_wabaId : option string
}.

Record WhatsApp : Type := mkWhatsApp {
  phoneNumberId : string;
  accessToken : string;
  apiVersion : string;
  wabaId : option string
}.

Definition new_WhatsApp (config : WhatsAppConfig) : WhatsApp :=
  {| phoneNumberId := cfg_phoneNumberId config;
     accessToken := cfg_accessToken config;
     apiVersion := str_or (cfg_apiVersion config) DEFAULT_API_VERSION;
     wabaId := cfg_wabaId config |}.

Definition baseUrl (self : WhatsApp) : string :=
  GRAPH_URL +:+ "/" +:+ apiVersion self.

(** A request body is a multipart form or any other value; a body that is
    [undefined] is no body. *)
Inductive RequestBody : Type :=
| FormDataBody (parts : list (string * string))
| DataBody (v : JSValue).

Record RequestOptions : Type := mkRequestOptions {
  opt_method : option string;
  opt_body : option RequestBody;
  opt_headers : option (gmap string string)
}.

(** What is handed to [fetch]: [JsonText v] stands for the text
    [JSON.stringify(v)]. *)
Inductive FetchBody : Type :=
| FormBody (parts : list (string * string))
| JsonText (v : JSValue).

Record RequestInit : Type := mkRequestInit {
  init_method : string;
  init_headers : gmap string string;
  init_body : option FetchBody
}.

(** A response of the Fetch API: [content_type] is what
    [headers.get("content-type")] returns, [json] what [json()] resolves to
    ([None] when the body does not decode and [json()] rejects). *)
Record Response : Type := mkResponse {
  status : Z;
  content_type : option string;
  json : option JSValue
}.

(** [response.ok]: by the Fetch standard, the status is in 200..299. *)
Definition ok (r : Response) : bool := (200 <=? status r) && (status r <? 300).

(** What [request] returns: the decoded body, or the response itself. *)
Inductive Payload : Type :=
| Decoded (v : JSValue)
| RawResponse (r : Response).

(** One call of [fetch]: a response, or a rejection. *)
Definition Fetch : Type := string -> RequestInit -> result Response.

Definition request (self : WhatsApp) (fetch : Fetch)
    (path : string) (options : option RequestOptions) : result Payload :=
  let url := baseUrl self +:+ "/" +:+ path in
  let method := str_or (options ≫= opt_method) "POST" in
  let headers : gmap string string :=
    default ∅ (options ≫= opt_headers)
    ∪ {[ "Authorization"%string := "Bearer " +:+ accessToken self ]} in
  let fetchOptions :=
    match options ≫= opt_body with
    | Some (FormDataBody parts) =>
        mkRequestInit method headers (Some (FormBody parts))
    | Some (DataBody JUndefined) | None => mkRequestInit method headers None
    | Some (DataBody v) =>
        mkRequestInit method
          (<[ "Content-Type"%string := "application/json"%string ]> headers)
          (Some (JsonText v))
    end in
  try response <- fetch url fetchOptions;
  let contentType := str_or (content_type response) "" in
  if negb (ok response) then
    let errorBody :=
      match json response with
      | Some v => v
      | None => JObj []
      end in
    try e <- fromApiResponse errorBody (status response);
    Throw (ApiError e)
  else if includes "application/json" contentType then
    match json response with
    | Some v => Ok (Decoded v)
    | None => Throw SyntaxError
    end
  else Ok (RawResponse response).

(** [obj[k] = v] on the property list of an object. *)
Fixpoint set_prop (k : string) (v : JSValue) (props : list (string * JSValue))
  : list (string * JSValue) :=
  match props with
  | [] => [(k, v)]
  | (k', v') :: rest =>
      if String.eqb k k' then (k, v) :: rest else (k', v') :: set_prop k v rest
  end.

(** [{ ...props, ...extra }]. *)
Definition spread (props extra : list (string * JSValue))
  : list (string * JSValue) :=
  foldl (fun acc kv => set_prop (fst kv) (snd kv) acc) props extra.

Record SendMessageOptions : Type := mkSendMessageOptions {
  replyTo : option string;
  previewUrl : option bool
}.

Definition sendMessage (self : WhatsApp) (fetch : Fetch)
    (to type : string) (content : list (string * JSValue))
    (options : option SendMessageOptions) : result Payload :=
  let body :=
    spread [("messaging_product", JStr "whatsapp");
            ("recipient_type", JStr "individual");
            ("to", JStr to); ("type", JStr type)]%string content in
  let body :=
    match options ≫= replyTo with
    | Some r =>
        if String.eqb r "" then body
        else set_prop "context" (JObj [("message_id"%string, JStr r)]) body
    | None => body
    end in
  request self fetch (phoneNumberId self +:+ "/messages")
    (Some (mkRequestOptions None (Some (DataBody (JObj body))) None)).

Definition sendTemplate (self : WhatsApp) (fetch : Fetch)
    (to name languageCode : string) (components : option (list JSValue))
  : result Payload :=
  let template :=
    [("name", JStr name);
     ("language", JObj [("code", JStr languageCode)])]%string in
  let template :=
    match components with
    | Some cs => set_prop "components" (JArr cs) template
    | None => template
    end in
  sendMessage self fetch to "template" [("template"%string, JObj template)] None.

(** [l.slice(start, end)]: a negative index counts from the end, and both
    are clamped to the list. *)
Definition slice {A : Type} (l : list A) (start stop : Z) : list A :=
  let len := Z.of_nat (length l) in
  let k := if start <? 0 then Z.max (len + start) 0 else Z.min start len in
  let fin := if stop <? 0 then Z.max (len + stop) 0 else Z.min stop len in
  take (Z.to_nat (fin - k)) (drop (Z.to_nat k) l).

(** [Promise.allSettled]: one slot per promise, filled with the promise's
    outcome when it settles; the promises settle in the order [order]
    (positions in the list).  The awaiting caller resumes, with the slots
    in list order, once every slot is filled, and never if one is not. *)
Definition settle {A : Type} (promises : list A)
    (slots : list (option A)) (i : nat) : list (option A) :=
  match promises !! i with
  | Some o => <[ i := Some o ]> slots
  | None => slots
  end.

Definition allSettled {A : Type} (order : list nat) (promises : list A)
  : option (list A) :=
  let slots := foldl (settle promises) (replicate (length promises) None) order in
  mapM (fun slot => slot) slots.

Record BroadcastOptions : Type := mkBroadcastOptions {
  batchSize : option Z;
  delayMs : option Z
}.

Record BroadcastResult : Type := mkBroadcastResult {
  succeeded : list (string * Payload);
  failed : list (string * Thrown)
}.

(** The state of a running broadcast: the two result lists, and what it
    has done so far (the fetch calls issued, the batches sent and the
    delays waited, oldest first). *)
Record BroadcastRun : Type := mkBroadcastRun {
  outcome : BroadcastResult;
  calls : nat;
  sent : list (list string);
  slept : list Z
}.

Definition push_succeeded (to : string) (v : Payload) (st : BroadcastRun)
  : BroadcastRun :=
  mkBroadcastRun
    (mkBroadcastResult (succeeded (outcome st) ++ [(to, v)]) (failed (outcome st)))
    (calls st) (sent st) (slept st).

Definition push_failed (to : string) (e : Thrown) (st : BroadcastRun)
  : BroadcastRun :=
  mkBroadcastRun
    (mkBroadcastResult (succeeded (outcome st)) (failed (outcome st) ++ [(to, e)]))
    (calls st) (sent st) (slept st).

(** The inner loop over [results], which has one entry per recipient of
    the batch. *)
Fixpoint collect (batch : list string) (results : list (result Payload))
    (st : BroadcastRun) : BroadcastRun :=
  match results, batch with
  | r :: results', to :: batch' =>
      collect batch' results'
        match r with
        | Ok v => push_succeeded to v st
        | Throw e => push_failed to e st
        end
  | _, _ => st
  end.

(** The sends that were fulfilled, and those that were rejected, each with
    its recipient and in list order. *)
Fixpoint successes (l : list (string * result Payload))
  : list (string * Payload) :=
  match l with
  | [] => []
  | (to, Ok v) :: rest => (to, v) :: successes rest
  | (_, Throw _) :: rest => successes rest
  end.

Fixpoint failures (l : list (string * result Payload))
  : list (string * Thrown) :=
  match l with
  | [] => []
  | (_, Ok _) :: rest => failures rest
  | (to, Throw e) :: rest => (to, e) :: failures rest
  end.

Section Broadcast.

Variable self : WhatsApp.
(** The network: the response to the [k]-th call of [fetch] (counting
    from 0 over the whole broadcast). *)
Variable fetch : nat -> Fetch.
(** The scheduler: the order in which the [n] sends of batch number [b]
    settle. *)
Variable completion : nat -> nat -> list nat.

Variable recipients : list string.
Variables templateName languageCode : string.
Variable components : option (list JSValue).
Variable options : option BroadcastOptions.

(** [batch.map(to => this.sendTemplate(...))]: the sends are issued in
    list order, each making one call of [fetch]. *)
Fixpoint issue (k : nat) (batch : list string) : list (result Payload) :=
  match batch with
  | [] => []
  | to :: rest =>
      sendTemplate self (fetch k) to templateName languageCode components
      :: issue (S k) rest
  end.

(** Each recipient of [batch] with the outcome of its send, the first
    send being call number [k]. *)
Definition settled (k : nat) (batch : list string)
  : list (string * result Payload) :=
  zip batch (issue k batch).

(** The outer loop from index [i] on; [None] when it has not finished
    within [fuel] iterations or a send never settles. *)
Fixpoint batch_loop (fuel : nat) (i : Z) (st : BroadcastRun)
  : option BroadcastRun :=
  let batchSize := default 50 (options ≫= batchSize) in
  let delayMs := default 100 (options ≫= delayMs) in
  match fuel with
  | O => None
  | S fuel' =>
      if i <? Z.of_nat (length recipients) then
        let batch := slice recipients i (i + batchSize) in
        match allSettled (completion (length (sent st)) (length batch))
                (issue (calls st) batch) with
        | Some results =>
            let st :=
              collect batch results
                (mkBroadcastRun (outcome st) (calls st + length batch)%nat
                   (sent st ++ [batch]) (slept st)) in
            let st :=
              if (i + batchSize <? Z.of_nat (length recipients))
                 && (0 <? delayMs)
              then mkBroadcastRun (outcome st) (calls st) (sent st)
                     (slept st ++ [delayMs])
              else st in
            batch_loop fuel' (i + batchSize) st
        | None => None
        end
      else Some st
  end.

Definition broadcastTemplate (fuel : nat) : option BroadcastRun :=
  batch_loop fuel 0 (mkBroadcastRun (mkBroadcastResult [] []) 0 [] []).

(** The number of batches still to send from index [k] on, for a positive
    batch size: the remaining recipients over the batch size, rounded up. *)
Definition batches_left (k : nat) : nat :=
  let batchSize := default 50 (options ≫= batchSize) in
  Z.to_nat ((Z.of_nat (length recipients) - Z.of_nat k + batchSize - 1)
            / batchSize).

End Broadcast.

End Client.
Export Client.

(** ** The normalizer as the specification describes it

    Written from the specification's algorithm (section 4.4), on the typed
    payload, to be compared with [parseWebhook]. *)
Module Spec.

(** Contact resolution: the first contact whose [wa_id] is the sender, else
    the first listed contact, else a synthetic one. *)
Definition resolveContact (cs : list Contact) (sender : string) : Contact :=
  match find (fun c => String.eqb (wa_id c) sender) cs with
  | Some c => c
  | None =>
      match cs with
      | c :: _ => c
      | [] => mkContact "" sender
      end
  end.

Definition message_events (v : RawValue) : list WebhookEvent :=
  map (fun m =>
         MessageEvent (message_js m)
           (contact_js (resolveContact (default [] (contacts v)) (from m)))
           (metadata_js (metadata v)))
      (default [] (messages v)).

Definition status_events (v : RawValue) : list WebhookEvent :=
  map (fun s => StatusEvent s (metadata_js (metadata v)))
      (default [] (statuses v)).

Definition error_events (v : RawValue) : list WebhookEvent :=
  match errors v with
  | Some (e :: es) => [ErrorEvent (JArr (e :: es)) (metadata_js (metadata v))]
  | _ => []
  end.

Definition events_of_value (v : RawValue) : list WebhookEvent :=
  message_events v ++ status_events v ++ error_events v.

Definition events_of_payload (p : RawWebhookPayload) : list WebhookEvent :=
  flat_map (fun e => flat_map (fun c => events_of_value (value c)) (changes e))
           (entry p).

(** A delivery with one entry, one change and the value block [v]. *)
Definition single_value_payload (v : RawValue) : RawWebhookPayload :=
  mkRawWebhookPayload "whatsapp_business_account"
    [mkRawEntry "WABA_ID" [mkRawChange v "messages"]].

End Spec.
Export Spec.


(** ** Inputs taken from the repository's tests, and named conditions *)
Module Fixtures.

(** The repository's broadcast test answers a failing send with the body
    [{ error: { message: "Bad", code: 100, error_subcode: 0 } }]. *)
Definition bad_request_body : JSValue :=
  JObj [("error",
         JObj [("message", JStr "Bad"); ("code", JNum 100);
               ("error_subcode", JNum 0)])]%string.

(** A failure body whose message is the object [{ toString: 1 }]:
    [{ error: { message: { toString: 1 } } }]. *)
Definition shadowed_body : JSValue :=
  JObj [("error",
         JObj [("message", JObj [("toString", JNum 1)])])]%string.

(** The handshake succeeds with challenge [c]. *)
Definition accepted (q : VerifyQuery) (t c : string) : Prop :=
  hub_mode q = Some "subscribe"%string /\ hub_verify_token q = Some t /\
  hub_challenge q = Some c /\ c <> ""%string.

Definition envelope (entries : list JSValue) : JSValue :=
  JObj [("object", JStr "whatsapp_business_account");
        ("entry", JArr entries)]%string.

(** The repository's test "messages and statuses in same payload", with a
    second change added. *)
Definition two_changes_payload : RawWebhookPayload :=
  let md := mkMetadata "55149" "123" in
  let msg :=
    mkInboundMessage "550" "m1" "1" "text"
      [("text"%string, JObj [("body"%string, JStr "hi")])] in
  let st :=
    JObj [("id", JStr "s1"); ("status", JStr "read"); ("timestamp", JStr "2");
          ("recipient_id", JStr "550")]%string in
  mkRawWebhookPayload "whatsapp_business_account"
    [mkRawEntry "WABA_ID"
       [mkRawChange
          (mkRawValue "whatsapp" md (Some [mkContact "X" "550"]) (Some [msg])
             (Some [st]) None) "messages";
        mkRawChange
          (mkRawValue "whatsapp" md None None (Some [st])
             (Some [JObj [("code"%string, JNum 131000)]])) "messages"]].

(** A network that answers every call with the response [r]. *)
Definition answering (r : Response) : Fetch := fun _ _ => Ok r.

(** The success body of the repository's client tests. *)
Definition SUCCESS : JSValue :=
  JObj [("messaging_product", JStr "whatsapp");
        ("contacts",
         JArr [JObj [("input", JStr "5511999999999");
                     ("wa_id", JStr "5511999999999")]]);
        ("messages", JArr [JObj [("id", JStr "wamid.abc123")]])]%string.

(** The network of the test "should collect failures separately": the
    second call is answered 400, the others 200. *)
Definition second_call_fails : nat -> Fetch :=
  fun k _ _ =>
    if Nat.eqb k 1
    then Ok (mkResponse 400 (Some "application/json"%string)
               (Some bad_request_body))
    else Ok (mkResponse 200 (Some "application/json"%string) (Some SUCCESS)).

(** A scheduler under which the sends of a batch settle last to first. *)
Definition settle_in_reverse : nat -> nat -> list nat :=
  fun _ n => rev (seq 0 n).

(** A stand-in for the keyed hash, for running the signature check. *)
Definition toy_hash (secret body : string) : string := secret +:+ ":" +:+ body.

Definition test_client : WhatsApp :=
  new_WhatsApp (mkWhatsAppConfig "123456789" "test-token" None None).

End Fixtures.
Export Fixtures.

(** ** Other methods of the client class *)
Module Methods.

(** [k in obj], on the property list of an object. *)
Definition has_key (k : string) (props : list (string * JSValue)) : bool :=
  existsb (fun kv => String.eqb k (fst kv)) props.

(** [v[0]] where [v] is not [null] or [undefined]: the first element of an
    array, the first character of a string, the property ["0"] of an
    object. *)
Definition index0 (v : JSValue) : JSValue :=
  match v with
  | JArr (x :: _) => x
  | JStr (String c _) => JStr (String c EmptyString)
  | JObj props => lookup_prop "0" props
  | _ => JUndefined
  end.

(** [!this.wabaId] *)
Definition no_wabaId (self : WhatsApp) : bool :=
  match wabaId self with
  | Some w => String.eqb w ""
  | None => true
  end.

Definition GET : option RequestOptions :=
  Some (mkRequestOptions (Some "GET"%string) None None).

Definition json_body (v : JSValue) : option RequestOptions :=
  Some (mkRequestOptions None (Some (DataBody v)) None).

Definition sendText (self : WhatsApp) (fetch : Fetch) (to body : string)
    (options : option SendMessageOptions) : result Payload :=
  sendMessage self fetch to "text"
    [("text"%string,
      JObj [("preview_url", JBool (default false (options ≫= previewUrl)));
            ("body", JStr body)]%string)]
    options.

Definition createTemplate (self : WhatsApp) (fetch : Fetch) (template : JSValue)
  : result Payload :=
  if no_wabaId self
  then Throw (PlainError "wabaId is required for template management")
  else request self fetch (default "" (wabaId self) +:+ "/message_templates")
         (json_body template).

Definition getHealthStatus (self : WhatsApp) (fetch : Fetch) : result Payload :=
  if no_wabaId self
  then Throw (PlainError "wabaId is required for health status")
  else request self fetch (default "" (wabaId self) +:+ "?fields=health_status")
         GET.

Definition listPhoneNumbers (self : WhatsApp) (fetch : Fetch) : result Payload :=
  if no_wabaId self
  then Throw (PlainError "wabaId is required for listing phone numbers")
  else request self fetch (default "" (wabaId self) +:+ "/phone_numbers") GET.

Definition createFlow (self : WhatsApp) (fetch : Fetch)
    (name : string) (categories : list string) : result Payload :=
  if no_wabaId self
  then Throw (PlainError "wabaId is required for flow management")
  else request self fetch (default "" (wabaId self) +:+ "/flows")
         (json_body
            (JObj [("name", JStr name);
                   ("categories", JArr (map JStr categories))]%string)).

Definition listFlows (self : WhatsApp) (fetch : Fetch) : result Payload :=
  if no_wabaId self
  then Throw (PlainError "wabaId is required for flow management")
  else request self fetch (default "" (wabaId self) +:+ "/flows") GET.

(** [result.data?.[0] || {}] on what [request] returned: the response
    object of a non-JSON answer has no [data] property. *)
Definition first_of_data (res : Payload) : result JSValue :=
  try data <-
    match res with
    | Decoded v => get v "data"
    | RawResponse _ => Ok JUndefined
    end;
  Ok (or_else (if nullish data then JUndefined else index0 data) (JObj [])).

Definition default_profile_fields : list string :=
  ["about"; "address"; "description"; "email"; "websites"; "vertical";
   "profile_picture_url"]%string.

Definition getBusinessProfile (self : WhatsApp) (fetch : Fetch)
    (fields : option (list string)) : result JSValue :=
  let allFields := default default_profile_fields fields in
  let path :=
    phoneNumberId self +:+ "/whatsapp_business_profile?fields="
    +:+ join "," allFields in
  try res <- request self fetch path GET;
  first_of_data res.

Definition getCommerceSettings (self : WhatsApp) (fetch : Fetch)
  : result JSValue :=
  try res <- request self fetch
               (phoneNumberId self +:+ "/whatsapp_commerce_settings") GET;
  first_of_data res.

Section Download.

(** [response.arrayBuffer()]: the bytes of the body, or a rejection. *)
Variable arrayBuffer : Response -> result (list Byte.byte).

(** [fetch] is called with the headers only, so with its default method. *)
Definition downloadMedia (self : WhatsApp) (fetch : Fetch) (url : string)
  : result (list Byte.byte) :=
  try response <-
    fetch url
      (mkRequestInit "GET"
         {[ "Authorization"%string := "Bearer " +:+ accessToken self ]} None);
  if negb (ok response) then
    try st <- to_string (JNum (status response));
    try e <- new_WhatsAppError (JStr ("Media download failed: " +:+ st))
               (JNum (status response)) "Media download error"
               (status response) None;
    Throw (ApiError e)
  else arrayBuffer response.

End Download.

End Methods.
Export Methods.

(** ** Conditions used in the statements of Part II *)
Module Conditions.

(** The only thing a computation throws, if it throws, is a [TypeError]. *)
Definition throws_only_TypeError {A : Type} (r : result A) : Prop :=
  forall t, r = Throw t -> t = TypeError.

Definition event_metadata (e : WebhookEvent) : JSValue :=
  match e with
  | MessageEvent _ _ md => md
  | StatusEvent _ md => md
  | ErrorEvent _ md => md
  end.

Definition present (v : JSValue) : bool := negb (nullish v).

(** A shape check for a delivery that passed [isValidPayload]: every entry
    is an object-like value with a [changes] array, every change has a
    [value], and where a value has messages, none of them and none of its
    contacts is [null], the contacts being a list or absent. *)
Definition safe_contacts (v : JSValue) : bool :=
  match v with
  | JUndefined | JNull => true
  | JArr cs => forallb present cs
  | _ => false
  end.

Definition safe_value (v : JSValue) : bool :=
  present v
  && match prop v "messages" with
     | JArr msgs => forallb present msgs && safe_contacts (prop v "contacts")
     | _ => true
     end.

Definition safe_change (c : JSValue) : bool :=
  present c && safe_value (prop c "value").

Definition safe_entry (e : JSValue) : bool :=
  present e
  && match prop e "changes" with
     | JArr cs => forallb safe_change cs
     | _ => false
     end.

Definition safe_payload (body : JSValue) : bool :=
  match prop body "entry" with
  | JArr es => forallb safe_entry es
  | _ => true
  end.

(** A vendor error as Meta documents it, and the body that carries it. *)
Record VendorError : Type := mkVendorError {
  ve_message : string;
  ve_code : Z;
  ve_subcode : option Z;
  ve_trace : option string
}.

Definition vendor_body (e : VendorError) : JSValue :=
  JObj [("error"%string,
         JObj ([("message", JStr (ve_message e)); ("code", JNum (ve_code e))]%string
               ++ optional "error_subcode" (JNum <$> ve_subcode e)
               ++ optional "fbtrace_id" (JStr <$> ve_trace e)))].

(** The code and the sub-code of a vendor error are safe integers. *)
Definition safe_vendor_error (e : VendorError) : bool :=
  safe_integer (ve_code e) && from_option safe_integer true (ve_subcode e).

End Conditions.
Export Conditions.

(* ===================================================================== *)
(** * Part II: theorems                                                   *)
(* ===================================================================== *)

(** ** The error taxonomy builder *)
Module ErrorsFacts.

(** The error block read from a body is never [null] or [undefined], so
    reading its fields cannot throw. *)
Lemma error_block_not_nullish (body : JSValue) :
  nullish (error_block body) = false.
Proof.
  unfold error_block, or_else.
  destruct (truthy (opt_prop body "error")) eqn:T; [|reflexivity].
  destruct (opt_prop body "error"); simpl in *; congruence.
Qed.

Lemma error_block_without_error (body : JSValue) :
  truthy (opt_prop body "error") = false -> error_block body = JObj [].
Proof. intros T. unfold error_block, or_else. now rewrite T. Qed.

(** Induction on values, with the elements of an array as sub-values. *)
Lemma JSValue_array_ind (P : JSValue -> Prop) :
  P JUndefined -> P JNull -> (forall b, P (JBool b)) ->
  (forall n, P (JNum n)) -> (forall s, P (JStr s)) ->
  (forall elems, Forall P elems -> P (JArr elems)) ->
  (forall props, P (JObj props)) ->
  forall v, P v.
Proof.
  intros Hu Hn Hb Hz Hs Ha Ho.
  fix IH 1. intros [| | b | n | s | elems | props].
  - exact Hu.
  - exact Hn.
  - apply Hb.
  - apply Hz.
  - apply Hs.
  - apply Ha. revert elems.
    fix IHl 1. intros [|e rest]; constructor; [apply IH | apply IHl].
  - apply Ho.
Qed.

(** A plain value has a string form: its conversion does not throw. *)
Lemma to_string_plain (v : JSValue) :
  plain v = true -> to_string v = Ok (string_form v).
Proof.
  intros H.
  enough (exists s, to_string v = Ok s) as [s E]
    by (unfold string_form; now rewrite E).
  revert H. induction v as [| | b | n | s | elems IH | props]
    using JSValue_array_ind; intros H.
  - now eexists.
  - now eexists.
  - destruct b; now eexists.
  - now eexists.
  - now eexists.
  - cbn [to_string].
    match goal with
    | |- exists s, bind (?each elems) _ = _ =>
        assert (exists parts, each elems = Ok parts) as [parts ->]
    end; [|simpl; now eexists].
    cbn [plain] in H.
    induction IH as [|e rest He _ IHrest]; [now eexists|].
    cbn [forallb] in H. apply andb_true_iff in H as [Pe Prest].
    destruct (IHrest Prest) as [ps Eps]. rewrite Eps.
    destruct (nullish e) eqn:N.
    + simpl. now eexists.
    + cbn [orb] in Pe. destruct (He Pe) as [s Es]. rewrite Es.
      simpl. now eexists.
  - cbn [plain] in H. cbn [to_string].
    destruct (shadows_toString props); [discriminate | now eexists].
Qed.

(** A falsy value is plain. *)
Lemma falsy_plain (v : JSValue) : truthy v = false -> plain v = true.
Proof.
  destruct v as [| | b | n | s | elems | props]; try easy.
  cbn [truthy plain]. destruct (Z.eqb_spec n 0) as [->|]; easy.
Qed.

(** An object that carries a [toString] entry of its own has no string
    form: converting it throws a [TypeError]. *)
Lemma to_string_shadowed (props : list (string * JSValue)) :
  shadows_toString props = true -> to_string (JObj props) = Throw TypeError.
Proof. intros H. cbn [to_string]. now rewrite H. Qed.

(** C4, as worded, fails: in this body a sub-code is present (it is 0), and
    the title is the string form of the code alone, not ["100/0"]. *)
Lemma fromApiResponse_subcode_zero :
  prop (error_block bad_request_body) "error_subcode" = JNum 0 /\
  fromApiResponse bad_request_body 400
  = Ok (mkWhatsAppError "Bad" (JNum 100) "100" 400 None) /\
  fromApiResponse bad_request_body 400
  <> Ok (mkWhatsAppError "Bad" (JNum 100) "100/0" 400 None).
Proof. repeat split; try reflexivity. vm_compute. discriminate. Qed.

(** What the conversions can throw is a [TypeError]. *)
Lemma to_string_throws (v : JSValue) (t : Thrown) :
  to_string v = Throw t -> t = TypeError.
Proof.
  revert t. induction v as [| | b | n | s | elems IH | props]
    using JSValue_array_ind; intros t; try discriminate.
  - destruct b; discriminate.
  - cbn [to_string].
    match goal with
    | |- bind (?each elems) _ = _ -> _ =>
        assert (forall t', each elems = Throw t' -> t' = TypeError) as Hparts
    end.
    { induction IH as [|e rest He _ IHrest]; intros t'; [discriminate|].
      destruct (nullish e).
      - cbn [bind].
        match goal with
        | |- bind ?x _ = _ -> _ => destruct x as [ps|t0] eqn:E
        end; cbn [bind]; [discriminate|].
        intros [= <-]. now apply IHrest.
      - destruct (to_string e) as [se|t0] eqn:Ee; cbn [bind].
        + match goal with
          | |- bind ?x _ = _ -> _ => destruct x as [ps|t1] eqn:E
          end; cbn [bind]; [discriminate|].
          intros [= <-]. now apply IHrest.
        + intros [= <-]. now apply He. }
    match goal with
    | |- bind ?x _ = _ -> _ => destruct x as [ps|t0] eqn:E
    end; cbn [bind]; [discriminate|].
    intros [= <-]. now apply Hparts.
  - cbn [to_string]. destruct (shadows_toString props); [|discriminate].
    now intros [= <-].
Qed.

(** The builder throws nothing but a [TypeError]. *)
Lemma fromApiResponse_throws (body : JSValue) (http : Z) (t : Thrown) :
  fromApiResponse body http = Throw t -> t = TypeError.
Proof.
  unfold fromApiResponse, new_WhatsAppError.
  repeat match goal with
         | |- context [to_string ?v] =>
             let E := fresh "E" in
             destruct (to_string v) eqn:E;
             [| apply to_string_throws in E; subst ]
         | |- context [if ?c then _ else _] => destruct c
         end; cbn [bind]; intros [= <-]; reflexivity.
Qed.

(** The error that the builder returns carries the status it was given. *)
Lemma fromApiResponse_httpStatus (body : JSValue) (http : Z)
    (e : WhatsAppError) :
  fromApiResponse body http = Ok e -> httpStatus e = http.
Proof.
  unfold fromApiResponse, new_WhatsAppError.
  repeat match goal with
         | |- context [to_string ?v] => destruct (to_string v)
         | |- context [if ?c then _ else _] => destruct c
         end; cbn [bind]; intros [= <-]; reflexivity.
Qed.

(** The error built from a body whose code, sub-code, message and trace
    id are plain. *)
Lemma fromApiResponse_plain (body : JSValue) (http : Z) :
  let err := error_block body in
  let vcode := prop err "code" in
  let vsub := prop err "error_subcode" in
  let vmsg := prop err "message" in
  let vtrace := prop err "fbtrace_id" in
  plain vcode = true -> plain vsub = true ->
  plain vmsg = true -> plain vtrace = true ->
  fromApiResponse body http
  = Ok (mkWhatsAppError
          (if truthy vmsg then string_form vmsg
           else "Unknown WhatsApp API error")
          (if truthy vcode then vcode else JNum 0)
          (if truthy vsub
           then string_form vcode +:+ "/" +:+ string_form vsub
           else if truthy vcode then string_form vcode else "unknown")
          http
          (if truthy vtrace
           then Some ("fbtrace_id: " +:+ string_form vtrace)
           else None)).
Proof.
  intros err vcode vsub vmsg vtrace Pc Ps Pm Pt.
  unfold fromApiResponse, new_WhatsAppError, or_else.
  fold err. fold vcode vsub vmsg vtrace.
  destruct (truthy vsub), (truthy vcode), (truthy vtrace), (truthy vmsg);
    rewrite ?(to_string_plain _ Pc), ?(to_string_plain _ Ps),
      ?(to_string_plain _ Pt), ?(to_string_plain _ Pm);
    reflexivity.
Qed.

(** C4, amended: for every status and every body whose code, sub-code,
    message and trace id are plain (none is, or holds, an object with a
    [toString] entry of its own, and their numbers are safe integers),
    [fromApiResponse] returns an error value whose fields are derived from
    the error block by truthiness, not presence: code is the vendor code
    when truthy, else 0; title is ["{code}/{subcode}"] when the sub-code is
    truthy, else the string form of the code when the code is truthy, else
    ["unknown"]; message is the string form of the vendor message when
    truthy, else the fallback literal; details is ["fbtrace_id: {id}"]
    when the trace id is truthy, else absent.  A body missing every field
    gives code 0, title ["unknown"] and the fallback message. *)
Theorem fromApiResponse_derivation (body : JSValue) (http : Z) :
  let err := error_block body in
  let vcode := prop err "code" in
  let vsub := prop err "error_subcode" in
  let vmsg := prop err "message" in
  let vtrace := prop err "fbtrace_id" in
  plain vcode = true -> plain vsub = true ->
  plain vmsg = true -> plain vtrace = true ->
  exists e,
    fromApiResponse body http = Ok e /\
    code e = (if truthy vcode then vcode else JNum 0) /\
    title e = (if truthy vsub
               then string_form vcode +:+ "/" +:+ string_form vsub
               else if truthy vcode then string_form vcode else "unknown") /\
    message e = (if truthy vmsg then string_form vmsg
                 else "Unknown WhatsApp API error") /\
    details e = (if truthy vtrace
                 then Some ("fbtrace_id: " +:+ string_form vtrace)
                 else None) /\
    httpStatus e = http /\
    (vcode = JUndefined -> vsub = JUndefined ->
     vmsg = JUndefined -> vtrace = JUndefined ->
     e = mkWhatsAppError "Unknown WhatsApp API error" (JNum 0) "unknown" http
           None).
Proof.
  intros err vcode vsub vmsg vtrace Pc Ps Pm Pt.
  eexists. split; [exact (fromApiResponse_plain body http Pc Ps Pm Pt)|].
  cbn [code title message details httpStatus].
  split; [reflexivity|]. split; [reflexivity|]. split; [reflexivity|].
  split; [reflexivity|]. split; [reflexivity|].
  intros Hc Hs Hm Ht. fold err. fold vcode vsub vmsg vtrace.
  rewrite Hc, Hs, Hm, Ht. reflexivity.
Qed.

(** The empty body, the body [null] and a body whose [error] is not an
    object all miss every field. *)
Lemma fromApiResponse_derivation_witness :
  fromApiResponse (JObj []) 500
  = Ok (mkWhatsAppError "Unknown WhatsApp API error" (JNum 0) "unknown" 500
          None)
  /\ fromApiResponse JNull 500
  = Ok (mkWhatsAppError "Unknown WhatsApp API error" (JNum 0) "unknown" 500
          None)
  /\ fromApiResponse (JObj [("error"%string, JStr "boom")]) 500
  = Ok (mkWhatsAppError "Unknown WhatsApp API error" (JNum 0) "unknown" 500
          None).
Proof.
  split; [|split].
  - destruct (fromApiResponse_derivation (JObj []) 500)
      as (e & -> & _ & _ & _ & _ & _ & ->); reflexivity.
  - destruct (fromApiResponse_derivation JNull 500)
      as (e & -> & _ & _ & _ & _ & _ & ->); reflexivity.
  - destruct (fromApiResponse_derivation
                (JObj [("error"%string, JStr "boom")]) 500)
      as (e & -> & _ & _ & _ & _ & _ & ->); reflexivity.
Defined.

(** The repository's own example (tests/errors.test.ts). *)
Example fromApiResponse_meta_response :
  fromApiResponse
    (JObj [("error",
            JObj [("message",
                   JStr "(#131030) Recipient phone number not in allowed list");
                  ("type", JStr "OAuthException"); ("code", JNum 131030);
                  ("error_subcode", JNum 2494010);
                  ("fbtrace_id", JStr "abc123")])]%string) 400
  = Ok (mkWhatsAppError "(#131030) Recipient phone number not in allowed list"
          (JNum 131030) "131030/2494010" 400 (Some "fbtrace_id: abc123"%string)).
Proof. reflexivity. Qed.

(** The conversion of the message is not guarded: on [shadowed_body] the
    builder throws a [TypeError] instead of returning an error value. *)
Lemma fromApiResponse_shadowed (http : Z) :
  fromApiResponse shadowed_body http = Throw TypeError.
Proof. reflexivity. Qed.

End ErrorsFacts.

(** ** The webhook handshake *)
Module HandshakeFacts.

Lemma field_is_true (f : option string) (s : string) :
  field_is f s = true <-> f = Some s.
Proof.
  destruct f as [x|]; simpl.
  - rewrite String.eqb_eq. split; [intros ->; reflexivity | congruence].
  - split; discriminate.
Qed.

Lemma verifyWebhook_cases (q : VerifyQuery) (t : string) :
  (exists c, accepted q t c /\ verifyWebhook q t = Ok c)
  \/ ((forall c, ~ accepted q t c)
      /\ verifyWebhook q t = Throw verification_failed).
Proof.
  unfold verifyWebhook, accepted.
  destruct (field_is (hub_mode q) "subscribe") eqn:M; simpl.
  2:{ right. split; [|reflexivity]. intros c (Hm & _).
      apply field_is_true in Hm. congruence. }
  destruct (field_is (hub_verify_token q) t) eqn:T; simpl.
  2:{ right. split; [|reflexivity]. intros c (_ & Ht & _).
      apply field_is_true in Ht. congruence. }
  apply field_is_true in M, T.
  destruct (hub_challenge q) as [c|] eqn:C; simpl.
  - destruct (String.eqb c "") eqn:E; simpl.
    + right. split; [|reflexivity]. intros c' (_ & _ & Hc & Hne).
      apply String.eqb_eq in E. congruence.
    + left. exists c. apply String.eqb_neq in E. auto.
  - right. split; [|reflexivity]. intros c (_ & _ & Hc & _). discriminate.
Qed.

(** C7, as worded, fails: with mode ["subscribe"], the expected token and a
    challenge that is present but empty, the handshake throws instead of
    returning the challenge. *)
Lemma empty_challenge_is_refused :
  let q := mkVerifyQuery (Some "subscribe") (Some "T") (Some "")%string in
  hub_mode q = Some "subscribe"%string /\ hub_verify_token q = Some "T"%string /\
  hub_challenge q = Some ""%string /\
  verifyWebhook q "T" <> Ok ""%string /\
  verifyWebhook q "T" = Throw verification_failed.
Proof. repeat split; try reflexivity. discriminate. Qed.

(** C7, amended: [verifyWebhook] returns the challenge exactly when mode is
    ["subscribe"], the supplied token is the expected one and the challenge
    is present and not empty; otherwise it throws "Webhook verification
    failed".  The query [{subscribe, T, C}] returns ["C"] against ["T"] and
    throws against ["X"]. *)
Theorem verifyWebhook_accepts_iff (q : VerifyQuery) (t : string) :
  (forall c, verifyWebhook q t = Ok c <-> accepted q t c) /\
  ((forall c, ~ accepted q t c) <->
   verifyWebhook q t = Throw verification_failed) /\
  verifyWebhook (mkVerifyQuery (Some "subscribe") (Some "T") (Some "C")) "T"
  = Ok "C"%string /\
  verifyWebhook (mkVerifyQuery (Some "subscribe") (Some "T") (Some "C")) "X"
  = Throw verification_failed.
Proof.
  split; [|split; [|split; reflexivity]].
  - intros c. destruct (verifyWebhook_cases q t) as [(c' & A & E)|[N E]].
    + rewrite E. split.
      * intros [= <-]. exact A.
      * intros (_ & _ & Hc & _). destruct A as (_ & _ & Hc' & _). congruence.
    + rewrite E. split; [discriminate|]. intros A. destruct (N c A).
  - destruct (verifyWebhook_cases q t) as [(c' & A & E)|[N E]].
    + rewrite E. split; [|discriminate]. intros N. destruct (N c' A).
    + split; [intros _; exact E | intros _; exact N].
Qed.

(** C9: mode ["subscribe"], the expected token and an empty challenge: the
    handshake throws the verification error, it does not return the empty
    string. *)
Theorem verifyWebhook_empty_challenge (q : VerifyQuery) (t : string) :
  hub_mode q = Some "subscribe"%string ->
  hub_verify_token q = Some t ->
  hub_challenge q = Some ""%string ->
  verifyWebhook q t = Throw verification_failed.
Proof.
  intros Hm Ht Hc.
  destruct (verifyWebhook_cases q t) as [(c & A & _)|[_ E]]; [|exact E].
  destruct A as (_ & _ & Hc' & Hne). congruence.
Qed.

Lemma verifyWebhook_empty_challenge_witness :
  verifyWebhook (mkVerifyQuery (Some "subscribe") (Some "tok") (Some ""))%string
    "tok"
  = Throw verification_failed.
Proof.
  apply (verifyWebhook_empty_challenge
           (mkVerifyQuery (Some "subscribe") (Some "tok") (Some ""))%string
           "tok"); reflexivity.
Defined.

End HandshakeFacts.

(** ** The webhook normalizer *)
Module NormalizerFacts.

(** *** Payloads that do not match the envelope *)

Lemma parseWebhook_rejects_bad_envelope (body : JSValue) :
  isValidPayload body = false -> parseWebhook body = Ok [].
Proof. intros H. unfold parseWebhook. now rewrite H. Qed.

Lemma isValidPayload_shape (body : JSValue) :
  isValidPayload body = true <->
  exists props elems,
    body = JObj props
    /\ lookup_prop "object" props = JStr "whatsapp_business_account"
    /\ lookup_prop "entry" props = JArr elems.
Proof.
  unfold isValidPayload. split.
  - destruct body as [| | | | |elems|props]; simpl; try discriminate.
    destruct (lookup_prop "object" props) as [| | | |s| |] eqn:O;
      simpl; try discriminate.
    destruct (String.eqb s "whatsapp_business_account") eqn:E;
      simpl; try discriminate.
    apply String.eqb_eq in E. subst s.
    destruct (lookup_prop "entry" props) as [| | | | |elems|] eqn:En;
      simpl; try discriminate.
    intros _. eauto.
  - intros (props & elems & -> & O & En). simpl. rewrite O, En. reflexivity.
Qed.

(** The four inputs of the specification's test: [null], [{}],
    [{object: "other"}] and a non-object. *)
Example parseWebhook_not_an_envelope :
  parseWebhook JNull = Ok [] /\ parseWebhook (JObj []) = Ok [] /\
  parseWebhook (JObj [("object"%string, JStr "other")]) = Ok [] /\
  parseWebhook (JStr "whatsapp_business_account") = Ok [] /\
  parseWebhook (JObj [("object"%string, JStr "whatsapp_business_account")])
  = Ok [].
Proof. repeat split. Qed.

(** C1: the code throws where the specification (and the function's own
    comment, "no throw") promises an empty list.  An entry without a
    [changes] list
    makes the inner [for ... of] iterate over [undefined]; a change without
    a [value] object makes [value.metadata] read a property of
    [undefined]; an entry that is [null] fails on [entry.changes]. *)
Theorem parseWebhook_throws_inside_envelope :
  parseWebhook (envelope [JObj []]) = Throw TypeError /\
  parseWebhook (envelope [JObj [("changes"%string, JArr [JObj []])]])
  = Throw TypeError /\
  parseWebhook (envelope [JNull]) = Throw TypeError.
Proof. split; [|split]; reflexivity. Qed.

(** *** Well-typed payloads *)

Lemma for_of_append {X E : Type} (enc : X -> JSValue)
    (body : JSValue -> list E -> result (list E)) (g : X -> list E) :
  (forall x evs, body (enc x) evs = Ok (evs ++ g x)) ->
  forall xs evs,
    for_of (map enc xs) body evs = Ok (evs ++ flat_map g xs).
Proof.
  intros Hbody xs. induction xs as [|x xs IH]; intros evs; simpl.
  - now rewrite app_nil_r.
  - rewrite Hbody. simpl. rewrite IH. now rewrite <- app_assoc.
Qed.

Lemma flat_map_singleton {X E : Type} (g : X -> E) (xs : list X) :
  flat_map (fun x => [g x]) xs = map g xs.
Proof. induction xs; simpl; congruence. Qed.

Lemma for_of_snoc {X E : Type} (enc : X -> JSValue)
    (body : JSValue -> list E -> result (list E)) (g : X -> E) :
  (forall x evs, body (enc x) evs = Ok (evs ++ [g x])) ->
  forall xs evs, for_of (map enc xs) body evs = Ok (evs ++ map g xs).
Proof.
  intros Hbody xs evs.
  rewrite (for_of_append enc body (fun x => [g x]) Hbody).
  now rewrite flat_map_singleton.
Qed.

Lemma array_find_contacts (cs : list Contact) (sender : string) :
  array_find (map contact_js cs)
    (fun c => try w <- get c "wa_id"; Ok (strict_eq w (JStr sender)))
  = Ok match find (fun c => String.eqb (wa_id c) sender) cs with
       | Some c => contact_js c
       | None => JUndefined
       end.
Proof.
  induction cs as [|c cs IH]; simpl; [reflexivity|].
  destruct (String.eqb (wa_id c) sender); [reflexivity|exact IH].
Qed.

(** On a well-typed contacts list and a string, [findContact] is the
    specification's contact resolution. *)
Lemma findContact_typed (cs : list Contact) (sender : string) :
  findContact (JArr (map contact_js cs)) (JStr sender)
  = Ok (contact_js (resolveContact cs sender)).
Proof.
  unfold findContact, resolveContact.
  rewrite array_find_contacts. simpl.
  destruct (find (fun c => String.eqb (wa_id c) sender) cs) as [c|];
    [reflexivity|].
  destruct cs as [|c cs]; reflexivity.
Qed.

Section ValueBlock.

Variable v : RawValue.

Lemma value_metadata : prop (value_js v) "metadata" = metadata_js (metadata v).
Proof. reflexivity. Qed.

Lemma value_contacts :
  coalesce (prop (value_js v) "contacts") (JArr [])
  = JArr (map contact_js (default [] (contacts v))).
Proof. destruct v as [mp md [cs|] [ms|] [ss|] [es|]]; reflexivity. Qed.

Lemma value_messages :
  prop (value_js v) "messages"
  = from_option (JArr ∘ map message_js) JUndefined (messages v).
Proof. destruct v as [mp md [cs|] [ms|] [ss|] [es|]]; reflexivity. Qed.

Lemma value_statuses :
  prop (value_js v) "statuses" = from_option JArr JUndefined (statuses v).
Proof. destruct v as [mp md [cs|] [ms|] [ss|] [es|]]; reflexivity. Qed.

Lemma value_errors :
  prop (value_js v) "errors" = from_option JArr JUndefined (errors v).
Proof. destruct v as [mp md [cs|] [ms|] [ss|] [es|]]; reflexivity. Qed.

End ValueBlock.

Lemma parseChange_typed (c : RawChange) (evs : list WebhookEvent) :
  parseChange (change_js c) evs = Ok (evs ++ events_of_value (value c)).
Proof.
  destruct c as [v f]. unfold parseChange. cbn [change_js value get nullish prop lookup_prop String.eqb Ascii.eqb Bool.eqb bind].
  change (get (value_js v) "metadata") with (Ok (prop (value_js v) "metadata")).
  cbn [bind].
  rewrite value_metadata, value_contacts, value_messages, value_statuses,
    value_errors.
  unfold events_of_value, message_events, status_events, error_events.
  set (md := metadata_js (metadata v)).
  set (cs := default [] (contacts v)).
  assert (Hmsgs : forall evs0,
      (if truthy (from_option (JArr ∘ map message_js) JUndefined (messages v))
          && isArray (from_option (JArr ∘ map message_js) JUndefined (messages v))
       then
         try msgs <- iterate
                       (from_option (JArr ∘ map message_js) JUndefined (messages v));
         for_of msgs
           (fun msg evs1 =>
              try sender <- get msg "from";
              try contact <- findContact (JArr (map contact_js cs)) sender;
              Ok (evs1 ++ [MessageEvent msg contact md]))
           evs0
       else Ok evs0)
      = Ok (evs0 ++ map (fun m => MessageEvent (message_js m)
                                 (contact_js (resolveContact cs (from m))) md)
                      (default [] (messages v)))).
  { intros evs0. destruct (messages v) as [ms|];
      cbn [from_option compose truthy isArray andb iterate bind default].
    - apply for_of_snoc. intros m evs1.
      change (get (message_js m) "from") with (Ok (JStr (from m))).
      cbn [bind]. rewrite findContact_typed. reflexivity.
    - now rewrite app_nil_r. }
  rewrite Hmsgs. cbn [bind].
  assert (Hsts : forall evs0,
      (if truthy (from_option JArr JUndefined (statuses v))
          && isArray (from_option JArr JUndefined (statuses v))
       then
         try sts <- iterate (from_option JArr JUndefined (statuses v));
         for_of sts (fun status evs1 => Ok (evs1 ++ [StatusEvent status md])) evs0
       else Ok evs0)
      = Ok (evs0 ++ map (fun s => StatusEvent s md) (default [] (statuses v)))).
  { intros evs0. destruct (statuses v) as [ss|]; simpl.
    - rewrite <- (map_id ss) at 1.
      apply (for_of_snoc (fun s => s)). reflexivity.
    - now rewrite app_nil_r. }
  rewrite Hsts. cbn [bind].
  destruct (errors v) as [[|e es]|]; simpl.
  - now rewrite app_nil_r, app_assoc.
  - now rewrite <- !app_assoc.
  - now rewrite app_nil_r, app_assoc.
Qed.

Lemma parseEntry_typed (e : RawEntry) (evs : list WebhookEvent) :
  parseEntry (entry_js e) evs
  = Ok (evs ++ flat_map (fun c => events_of_value (value c)) (changes e)).
Proof.
  unfold parseEntry. simpl.
  apply for_of_append. intros c evs0. apply parseChange_typed.
Qed.

(** [parseWebhook] refines the specification's algorithm on every
    well-typed delivery. *)
Lemma parseWebhook_typed (p : RawWebhookPayload) :
  object p = "whatsapp_business_account"%string ->
  parseWebhook (payload_js p) = Ok (events_of_payload p).
Proof.
  intros Hobj. unfold parseWebhook, payload_js, isValidPayload.
  rewrite Hobj. simpl.
  rewrite (for_of_append entry_js parseEntry
             (fun e => flat_map (fun c => events_of_value (value c)) (changes e))).
  - reflexivity.
  - intros e evs. apply parseEntry_typed.
Qed.

(** C5: a well-typed delivery with one value block holding N messages and
    M statuses gives N + M events, plus one error event exactly when the
    value-level [errors] list is present and non-empty: the message events
    first, in the order of [messages], then the status events, in the order
    of [statuses], then the error event.  In a delivery with several
    changes or entries the events of each value block come, in that shape,
    before those of the next one. *)
Theorem parseWebhook_events_in_document_order :
  (forall v : RawValue,
     let md := metadata_js (metadata v) in
     let ms := default [] (messages v) in
     let ss := default [] (statuses v) in
     exists msgs sts errs,
       parseWebhook (payload_js (single_value_payload v))
       = Ok (msgs ++ sts ++ errs)
       /\ msgs = map (fun m =>
                        MessageEvent (message_js m)
                          (contact_js
                             (resolveContact (default [] (contacts v)) (from m)))
                          md) ms
       /\ sts = map (fun s => StatusEvent s md) ss
       /\ errs = match errors v with
                 | Some (e :: es) => [ErrorEvent (JArr (e :: es)) md]
                 | _ => []
                 end
       /\ length (msgs ++ sts ++ errs)
          = (length ms + length ss
             + match errors v with Some (_ :: _) => 1 | _ => 0 end)%nat)
  /\
  (forall p : RawWebhookPayload,
     object p = "whatsapp_business_account"%string ->
     parseWebhook (payload_js p)
     = Ok (flat_map
             (fun e =>
                flat_map
                  (fun c =>
                     message_events (value c) ++ status_events (value c)
                     ++ error_events (value c))
                  (changes e))
             (entry p))).
Proof.
  split.
  - intros v md ms ss.
    eexists _, _, _. split; [|split; [reflexivity|split; [reflexivity|split;
      [reflexivity|]]]].
    + rewrite parseWebhook_typed by reflexivity.
      unfold events_of_payload, events_of_value. simpl.
      rewrite !app_nil_r. reflexivity.
    + rewrite !length_app, !length_map.
      destruct (errors v) as [[|e es]|]; simpl; lia.
  - intros p Hobj. now apply parseWebhook_typed.
Qed.

Lemma parseWebhook_events_in_document_order_witness :
  parseWebhook (payload_js two_changes_payload)
  = Ok (flat_map
          (fun e =>
             flat_map
               (fun c =>
                  message_events (value c) ++ status_events (value c)
                  ++ error_events (value c))
               (changes e))
          (entry two_changes_payload)).
Proof.
  apply (proj2 parseWebhook_events_in_document_order two_changes_payload).
  reflexivity.
Defined.

Example two_changes_payload_kinds :
  (fun evs =>
     match evs with
     | Ok [MessageEvent _ _ _; StatusEvent _ _; StatusEvent _ _; ErrorEvent _ _]
       => true
     | _ => false
     end) (parseWebhook (payload_js two_changes_payload)) = true.
Proof. reflexivity. Qed.

(** C6: on a well-typed contacts list, the contact resolved for a sender is
    the first listed contact whose [wa_id] is the sender when there is one;
    the first listed contact when there is none and the list is not empty;
    a synthetic contact with an empty name and the sender as [wa_id] when
    the list is empty.  In a parsed delivery each message is resolved this
    way against the [contacts] of its value block, an absent [contacts]
    counting as the empty list. *)
Theorem findContact_resolution (cs : list Contact) (sender : string) :
  (forall pre c post,
     cs = pre ++ c :: post -> wa_id c = sender ->
     Forall (fun c' => wa_id c' <> sender) pre ->
     findContact (JArr (map contact_js cs)) (JStr sender) = Ok (contact_js c))
  /\
  (forall c rest,
     cs = c :: rest -> Forall (fun c' => wa_id c' <> sender) cs ->
     findContact (JArr (map contact_js cs)) (JStr sender) = Ok (contact_js c))
  /\
  (cs = [] ->
   findContact (JArr (map contact_js cs)) (JStr sender)
   = Ok (contact_js (mkContact "" sender)))
  /\
  (forall (md : Metadata) (listed : option (list Contact)) (m : InboundMessage),
     default [] listed = cs -> from m = sender ->
     parseWebhook
       (payload_js
          (single_value_payload
             (mkRawValue "whatsapp" md listed (Some [m]) None None)))
     = try contact <- findContact (JArr (map contact_js cs)) (JStr sender);
       Ok [MessageEvent (message_js m) contact (metadata_js md)]).
Proof.
  assert (Hnone : Forall (fun c' => wa_id c' <> sender) cs ->
                  find (fun c => String.eqb (wa_id c) sender) cs = None).
  { induction 1 as [|c l Hc _ IH]; simpl; [reflexivity|].
    apply String.eqb_neq in Hc. now rewrite Hc. }
  split; [|split; [|split]].
  - intros pre c post -> Hc Hpre. rewrite findContact_typed.
    unfold resolveContact.
    assert (find (fun c0 => String.eqb (wa_id c0) sender) (pre ++ c :: post)
            = Some c) as ->; [|reflexivity].
    clear Hnone. induction Hpre as [|c' l Hc' _ IH]; simpl.
    + apply String.eqb_eq in Hc. now rewrite Hc.
    + apply String.eqb_neq in Hc'. now rewrite Hc'.
  - intros c rest -> Hall. rewrite findContact_typed.
    unfold resolveContact. now rewrite (Hnone Hall).
  - intros ->. reflexivity.
  - intros md listed m <- <-.
    rewrite parseWebhook_typed by reflexivity.
    rewrite findContact_typed. reflexivity.
Qed.

Lemma findContact_resolution_witness :
  let a := mkContact "A" "551" in
  let b := mkContact "B" "552" in
  findContact (JArr (map contact_js [a; b])) (JStr "552") = Ok (contact_js b)
  /\ findContact (JArr (map contact_js [a; b])) (JStr "553") = Ok (contact_js a)
  /\ findContact (JArr (map contact_js [])) (JStr "553")
     = Ok (contact_js (mkContact "" "553")).
Proof.
  intros a b. split; [|split].
  - apply (proj1 (findContact_resolution [a; b] "552") [a] b []);
      [reflexivity|reflexivity|].
    repeat constructor. discriminate.
  - apply (proj1 (proj2 (findContact_resolution [a; b] "553")) a [b]);
      [reflexivity|].
    repeat constructor; discriminate.
  - apply (proj1 (proj2 (proj2 (findContact_resolution [] "553")))).
    reflexivity.
Defined.

End NormalizerFacts.

(** ** The signature check *)
Module SignatureFacts.

Lemma string_length_append (p s : string) :
  String.length (p +:+ s) = (String.length p + String.length s)%nat.
Proof. induction p as [|a p IH]; simpl; [reflexivity|now rewrite IH]. Qed.

Lemma prefix_append (p s : string) : String.prefix p (p +:+ s) = true.
Proof.
  induction p as [|a p IH]; simpl.
  - destruct s; reflexivity.
  - destruct (ascii_dec a a); [exact IH|congruence].
Qed.

Lemma append_not_self (p s : string) : p <> ""%string -> s <> p +:+ s.
Proof.
  intros Hp E.
  assert (L : String.length s = String.length (p +:+ s)) by now rewrite <- E.
  rewrite string_length_append in L.
  destruct p as [|a p]; [congruence|]. simpl in L. lia.
Qed.

Section WithHash.

Variable hmac_sha256_hex : string -> string -> string.
Variable json_parse : string -> result JSValue.

(** C8: [validateSignature] is a total boolean function that answers true
    exactly when the header is ["sha256="] followed by the hex HMAC of the
    raw body under the secret; a header without the ["sha256="] prefix is
    rejected, also when it is the correct digest; and
    [parseWebhookWithSignature] throws "Invalid webhook signature" whenever
    the check fails. *)
Theorem validateSignature_exact (rawBody signature appSecret : string) :
  (validateSignature hmac_sha256_hex rawBody signature appSecret = true <->
   signature = "sha256=" +:+ hmac_sha256_hex appSecret rawBody) /\
  (String.prefix "sha256=" signature = false ->
   validateSignature hmac_sha256_hex rawBody signature appSecret = false) /\
  validateSignature hmac_sha256_hex rawBody
    (hmac_sha256_hex appSecret rawBody) appSecret = false /\
  (validateSignature hmac_sha256_hex rawBody signature appSecret = false ->
   parseWebhookWithSignature hmac_sha256_hex json_parse
     rawBody signature appSecret
   = Throw invalid_signature).
Proof.
  unfold parseWebhookWithSignature, validateSignature.
  split; [|split; [|split]].
  - apply String.eqb_eq.
  - intros Hpre. apply String.eqb_neq. intros ->.
    rewrite prefix_append in Hpre. discriminate Hpre.
  - apply String.eqb_neq, append_not_self. discriminate.
  - intros ->. reflexivity.
Qed.

End WithHash.

Lemma validateSignature_exact_witness :
  validateSignature toy_hash "body" "secret:body" "secret" = false /\
  parseWebhookWithSignature toy_hash (fun _ => Ok (envelope []))
    "body" "sha256=bad" "secret"
  = Throw invalid_signature.
Proof.
  split.
  - apply (proj1 (proj2 (validateSignature_exact toy_hash
                           (fun _ => Ok (envelope []))
                           "body" "secret:body" "secret"))).
    reflexivity.
  - apply (proj2 (proj2 (proj2 (validateSignature_exact toy_hash
                                  (fun _ => Ok (envelope []))
                                  "body" "sha256=bad" "secret")))).
    reflexivity.
Defined.

End SignatureFacts.

(** ** The request pipeline *)
Module RequestFacts.

Lemma ok_status (r : Response) : ok r = true <-> 200 <= status r < 300.
Proof. unfold ok. rewrite andb_true_iff, Z.leb_le, Z.ltb_lt. tauto. Qed.

(** C3: a response with status 400 whose body decodes to
    [{ error: { message: { toString: 1 } } }] makes [request] throw a
    [TypeError], not a [WhatsAppError], whatever the client, the path, the
    options and the content type: the body decodes, so the fallback to the
    empty object is not taken, and [fromApiResponse] throws while it
    converts the message to a string. *)
Theorem request_throws_TypeError_on_failure
    (self : WhatsApp) (path : string) (options : option RequestOptions)
    (ct : option string) :
  request self (answering (mkResponse 400 ct (Some shadowed_body))) path options
  = Throw TypeError.
Proof. reflexivity. Qed.

End RequestFacts.

(** ** The broadcast dispatcher *)
Module BroadcastFacts.

(** *** [Promise.allSettled] *)

Section Slots.

Context {A : Type}.
Variable promises : list A.

Local Abbreviation settle := (settle promises).

Lemma settle_length (sl : list (option A)) (i : nat) :
  length (settle sl i) = length sl.
Proof. unfold settle. destruct (promises !! i); [apply length_insert|done]. Qed.

Lemma settle_lookup (sl : list (option A)) (i j : nat) :
  length sl = length promises ->
  settle sl i !! j
  = if decide (i = j) then (Some <$> promises) !! j else sl !! j.
Proof.
  intros Hlen. unfold settle. rewrite list_lookup_fmap.
  destruct (decide (i = j)) as [->|Hne].
  - destruct (promises !! j) as [o|] eqn:Hj; simpl.
    + apply list_lookup_insert_eq. apply lookup_lt_Some in Hj. lia.
    + apply lookup_ge_None. apply lookup_ge_None in Hj. lia.
  - destruct (promises !! i); [now apply list_lookup_insert_ne|done].
Qed.

(** A slot holds the outcome of its promise as soon as the promise is
    among those that settled. *)
Lemma slots_after (order : list nat) :
  forall sl : list (option A),
    length sl = length promises ->
    forall j,
      foldl settle sl order !! j
      = if decide (j ∈ order) then (Some <$> promises) !! j else sl !! j.
Proof.
  induction order as [|i order IH]; intros sl Hlen j; simpl.
  - destruct (decide (j ∈ [])) as [Hin|_]; [|done]. inversion Hin.
  - rewrite IH by now rewrite settle_length.
    rewrite settle_lookup by done.
    destruct (decide (j ∈ order)) as [Hin|Hnin].
    + rewrite decide_True by (now right). done.
    + destruct (decide (i = j)) as [->|Hne].
      * rewrite decide_True by left. done.
      * rewrite decide_False; [done|].
        intros Hin. apply elem_of_cons in Hin as [->|Hin]; done.
Qed.

(** Whatever the order in which the promises settle, once all have settled
    the results are the outcomes in the order of the promises. *)
Lemma allSettled_any_order (order : list nat) :
  order ≡ₚ seq 0 (length promises) ->
  allSettled order promises = Some promises.
Proof.
  intros Hperm. unfold allSettled.
  assert (Hslots : foldl settle (replicate (length promises) None) order
                   = Some <$> promises).
  { apply list_eq. intros j.
    rewrite slots_after by apply length_replicate.
    destruct (decide (j ∈ order)) as [_|Hnin]; [done|].
    assert (Hge : (length promises <= j)%nat).
    { destruct (decide (j < length promises)%nat) as [Hlt|]; [|lia].
      destruct Hnin. rewrite Hperm. apply elem_of_seq. lia. }
    rewrite list_lookup_fmap.
    rewrite (proj2 (lookup_ge_None promises j) Hge). simpl.
    apply lookup_replicate_None. lia. }
  rewrite Hslots. now apply mapM_fmap_Some.
Qed.

End Slots.

(** *** The result lists *)

Lemma successes_app (l1 l2 : list (string * result Payload)) :
  successes (l1 ++ l2) = successes l1 ++ successes l2.
Proof.
  induction l1 as [|[to [v|e]] l1 IH]; simpl; [done|now rewrite IH|done].
Qed.

Lemma failures_app (l1 l2 : list (string * result Payload)) :
  failures (l1 ++ l2) = failures l1 ++ failures l2.
Proof.
  induction l1 as [|[to [v|e]] l1 IH]; simpl; [done|done|now rewrite IH].
Qed.

(** Every outcome lands in exactly one of the two lists. *)
Lemma successes_failures_recipients (l : list (string * result Payload)) :
  (successes l).*1 ++ (failures l).*1 ≡ₚ l.*1.
Proof.
  induction l as [|[to [v|e]] l IH]; simpl.
  - done.
  - now constructor.
  - rewrite <- Permutation_middle. now constructor.
Qed.

Section Run.

Variable self : WhatsApp.
Variable fetch : nat -> Fetch.
Variable completion : nat -> nat -> list nat.
Variable recipients : list string.
Variables templateName languageCode : string.
Variable components : option (list JSValue).
Variable options : option BroadcastOptions.

Local Abbreviation size := (default 50 (options ≫= batchSize)).
Local Abbreviation pause := (default 100 (options ≫= delayMs)).
Local Abbreviation len := (Z.of_nat (length recipients)).
Local Abbreviation issue' := (issue self fetch templateName languageCode components).
Local Abbreviation settled' := (settled self fetch templateName languageCode components).
Local Abbreviation loop :=
  (batch_loop self fetch completion recipients templateName languageCode
     components options).

Lemma issue_length (k : nat) (batch : list string) :
  length (issue' k batch) = length batch.
Proof. revert k. induction batch; intros k; simpl; [done|now rewrite IHbatch]. Qed.

Lemma settled_app (k : nat) (l1 l2 : list string) :
  settled' k (l1 ++ l2) = settled' k l1 ++ settled' (k + length l1) l2.
Proof.
  unfold settled. revert k.
  induction l1 as [|to l1 IH]; intros k; simpl.
  - now rewrite Nat.add_0_r.
  - rewrite IH. now rewrite Nat.add_succ_r.
Qed.

Lemma settled_recipients (k : nat) (l : list string) : (settled' k l).*1 = l.
Proof. unfold settled. apply fst_zip. now rewrite issue_length. Qed.

Lemma collect_settled (batch : list string) :
  forall k st,
    collect batch (issue' k batch) st
    = mkBroadcastRun
        (mkBroadcastResult
           (succeeded (outcome st) ++ successes (settled' k batch))
           (failed (outcome st) ++ failures (settled' k batch)))
        (calls st) (sent st) (slept st).
Proof.
  induction batch as [|to batch IH]; intros k [[su fa] c se sl]; simpl.
  - now rewrite !app_nil_r.
  - rewrite IH. unfold settled. simpl.
    destruct (sendTemplate self (fetch k) to templateName languageCode components);
      simpl; now rewrite <- app_assoc.
Qed.

(** In range, and with a positive batch size, [slice] cuts the next
    [batchSize] recipients. *)
Lemma slice_batch (k : nat) :
  1 <= size -> (k < length recipients)%nat ->
  slice recipients (Z.of_nat k) (Z.of_nat k + size)
  = take (Z.to_nat size) (drop k recipients).
Proof.
  intros Hsize Hk. unfold slice.
  rewrite (proj2 (Z.ltb_ge (Z.of_nat k) 0)) by lia.
  rewrite (proj2 (Z.ltb_ge (Z.of_nat k + size) 0)) by lia.
  rewrite (Z.min_l (Z.of_nat k) len) by lia. rewrite Nat2Z.id.
  destruct (Z.le_gt_cases (Z.of_nat k + size) len) as [Hle|Hgt].
  - rewrite Z.min_l by lia. f_equal. lia.
  - rewrite Z.min_r by lia.
    rewrite !take_ge; [done| |]; rewrite length_drop; lia.
Qed.

Local Abbreviation batches_left := (batches_left recipients options).

Lemma batches_left_done (k : nat) :
  1 <= size -> (length recipients <= k)%nat -> batches_left k = 0%nat.
Proof.
  intros Hsize Hk. unfold batches_left.
  assert ((len - Z.of_nat k + size - 1) / size <= 0); [|lia].
  apply Z.lt_succ_r. apply Z.div_lt_upper_bound; lia.
Qed.

Lemma batches_left_step (k : nat) :
  1 <= size -> (k < length recipients)%nat ->
  batches_left k = S (batches_left (k + Z.to_nat size)).
Proof.
  intros Hsize Hk. unfold batches_left.
  replace (len - Z.of_nat k + size - 1)
    with ((len - Z.of_nat k - 1) + 1 * size) by lia.
  rewrite Z.div_add by lia.
  replace (len - Z.of_nat (k + Z.to_nat size) + size - 1)
    with (len - Z.of_nat k - 1) by lia.
  assert (0 <= (len - Z.of_nat k - 1) / size) by (apply Z.div_pos; lia).
  lia.
Qed.

(** The loop from index [k] on: with enough fuel it ends, having appended
    the outcome of every remaining recipient, in order, to the list of its
    kind, and having sent the remaining recipients in [batches_left k]
    batches. *)
Lemma batch_loop_runs :
  1 <= size ->
  (forall b n, completion b n ≡ₚ seq 0 n) ->
  forall fuel k st,
    (batches_left k < fuel)%nat ->
    exists st',
      loop fuel (Z.of_nat k) st = Some st'
      /\ succeeded (outcome st')
         = succeeded (outcome st)
           ++ successes (settled' (calls st) (drop k recipients))
      /\ failed (outcome st')
         = failed (outcome st)
           ++ failures (settled' (calls st) (drop k recipients))
      /\ length (sent st') = (length (sent st) + batches_left k)%nat
      /\ concat (sent st') = concat (sent st) ++ drop k recipients.
Proof.
  intros Hsize Hfair.
  induction fuel as [|fuel IH]; intros k st Hfuel; [lia|].
  cbn [batch_loop].
  destruct (Z.of_nat k <? len) eqn:Hk.
  - apply Z.ltb_lt in Hk.
    rewrite slice_batch by lia.
    set (batch := take (Z.to_nat size) (drop k recipients)).
    rewrite allSettled_any_order
      by (rewrite issue_length; apply Hfair).
    rewrite collect_settled. cbn [outcome calls sent slept].
    rewrite batches_left_step in Hfuel |- * by lia.
    replace (Z.of_nat k + size) with (Z.of_nat (k + Z.to_nat size)) by lia.
    assert (Hdrop : drop k recipients
                    = batch ++ drop (k + Z.to_nat size) recipients).
    { subst batch. now rewrite <- drop_drop, take_drop. }
    match goal with
    | |- context [loop fuel _ ?s] =>
        destruct (IH (k + Z.to_nat size)%nat s) as (st' & Hrun & Hs & Hf & Hn & Hc);
          [lia|]
    end.
    exists st'. split; [exact Hrun|].
    rewrite Hdrop, settled_app, successes_app, failures_app.
    destruct (_ && _); cbn [outcome calls sent slept succeeded failed] in *;
      rewrite Hs, Hf, Hn, Hc, ?length_app, ?concat_app, <- ?app_assoc;
      simpl; rewrite ?app_nil_r; repeat split; lia.
  - apply Z.ltb_ge in Hk.
    exists st. rewrite batches_left_done by lia.
    rewrite drop_ge by lia. simpl.
    now rewrite !app_nil_r, Nat.add_0_r.
Qed.

(** With a batch size of 0 or less the index never reaches the end of a
    non-empty list. *)
Lemma batch_loop_stuck :
  size <= 0 -> recipients <> [] ->
  forall fuel i st, i <= 0 -> loop fuel i st = None.
Proof.
  intros Hsize Hne.
  assert (0 < len) by (destruct recipients; [done|simpl; lia]).
  induction fuel as [|fuel IH]; intros i st Hi; [done|].
  cbn [batch_loop].
  rewrite (proj2 (Z.ltb_lt i len)) by lia.
  destruct (allSettled _ _); [|done].
  apply IH. lia.
Qed.

Lemma batches_left_bound :
  1 <= size -> (batches_left 0 <= length recipients)%nat.
Proof.
  intros Hsize. unfold batches_left.
  assert ((len - Z.of_nat 0 + size - 1) / size < len + 1); [|lia].
  apply Z.div_lt_upper_bound; nia.
Qed.

End Run.

Lemma settle_in_reverse_fair (b n : nat) : settle_in_reverse b n ≡ₚ seq 0 n.
Proof. unfold settle_in_reverse. symmetry. apply Permutation_rev. Qed.

(** C2: for a batch size of at least 1 and whatever the order in which the
    sends settle, the broadcast ends with [succeeded] holding exactly the
    fulfilled sends and [failed] exactly the rejected ones, each with its
    recipient and in the order of the recipients: a rejected send removes
    no other outcome.  With three recipients of which the second send
    alone is rejected, [succeeded] has the first and the third, [failed]
    the second; with a batch size of 3 or more they went out as one
    batch. *)
Theorem broadcastTemplate_isolates_failures
    (self : WhatsApp) (fetch : nat -> Fetch) (completion : nat -> nat -> list nat)
    (recipients : list string) (templateName languageCode : string)
    (components : option (list JSValue)) (options : option BroadcastOptions)
    (fuel : nat) :
  1 <= default 50 (options ≫= batchSize) ->
  (forall b n, completion b n ≡ₚ seq 0 n) ->
  (length recipients < fuel)%nat ->
  exists st,
    broadcastTemplate self fetch completion recipients templateName
      languageCode components options fuel = Some st
    /\ succeeded (outcome st)
       = successes (settled self fetch templateName languageCode components
                      0 recipients)
    /\ failed (outcome st)
       = failures (settled self fetch templateName languageCode components
                     0 recipients)
    /\ (forall r1 r2 r3 v1 e2 v3,
          recipients = [r1; r2; r3] ->
          sendTemplate self (fetch 0%nat) r1 templateName languageCode components
          = Ok v1 ->
          sendTemplate self (fetch 1%nat) r2 templateName languageCode components
          = Throw e2 ->
          sendTemplate self (fetch 2%nat) r3 templateName languageCode components
          = Ok v3 ->
          succeeded (outcome st) = [(r1, v1); (r3, v3)]
          /\ failed (outcome st) = [(r2, e2)]
          /\ (3 <= default 50 (options ≫= batchSize) ->
              sent st = [[r1; r2; r3]])).
Proof.
  intros Hsize Hfair Hfuel.
  destruct (batch_loop_runs self fetch completion recipients templateName
              languageCode components options Hsize Hfair fuel 0
              (mkBroadcastRun (mkBroadcastResult [] []) 0 [] []))
    as (st & Hrun & Hs & Hf & Hn & Hc).
  { pose proof (batches_left_bound recipients options Hsize). lia. }
  simpl in Hs, Hf, Hn, Hc. rewrite drop_0 in Hs, Hf.
  exists st. split; [exact Hrun|]. split; [exact Hs|]. split; [exact Hf|].
  intros r1 r2 r3 v1 e2 v3 -> H1 H2 H3.
  rewrite Hs, Hf. unfold settled. simpl. rewrite H1, H2, H3. simpl.
  split; [done|]. split; [done|]. intros Hone.
  assert (Hleft : batches_left [r1; r2; r3] options 0 = 1%nat).
  { unfold batches_left. simpl length.
    assert ((3 - 0 + default 50 (options ≫= batchSize) - 1)
            / default 50 (options ≫= batchSize) = 1); [|simpl in *; lia].
    symmetry. apply Z.div_unique with (r := 2); lia. }
  rewrite Hleft in Hn.
  destruct (sent st) as [|batch [|batch' rest]]; simpl in Hn; try lia.
  simpl in Hc. rewrite app_nil_r in Hc. now subst batch.
Qed.

Lemma broadcastTemplate_isolates_failures_witness :
  exists st,
    broadcastTemplate test_client second_call_fails settle_in_reverse
      ["551"; "552"; "553"]%string "hello_world" "en_US" None None 4
    = Some st
    /\ succeeded (outcome st)
       = successes (settled test_client second_call_fails "hello_world" "en_US"
                      None 0 ["551"; "552"; "553"]%string)
    /\ failed (outcome st)
       = failures (settled test_client second_call_fails "hello_world" "en_US"
                     None 0 ["551"; "552"; "553"]%string)
    /\ (forall r1 r2 r3 v1 e2 v3,
          ["551"; "552"; "553"]%string = [r1; r2; r3] ->
          sendTemplate test_client (second_call_fails 0%nat) r1
            "hello_world" "en_US" None = Ok v1 ->
          sendTemplate test_client (second_call_fails 1%nat) r2
            "hello_world" "en_US" None = Throw e2 ->
          sendTemplate test_client (second_call_fails 2%nat) r3
            "hello_world" "en_US" None = Ok v3 ->
          succeeded (outcome st) = [(r1, v1); (r3, v3)]
          /\ failed (outcome st) = [(r2, e2)]
          /\ (3 <= default 50 (None ≫= batchSize) -> sent st = [[r1; r2; r3]])).
Proof.
  apply (broadcastTemplate_isolates_failures test_client second_call_fails
           settle_in_reverse ["551"; "552"; "553"]%string "hello_world" "en_US"
           None None 4).
  - simpl. lia.
  - exact settle_in_reverse_fair.
  - simpl. lia.
Defined.

(** The repository's test "should collect failures separately", run. *)
Example broadcast_collects_failures_separately :
  broadcastTemplate test_client second_call_fails settle_in_reverse
    ["551"; "552"; "553"]%string "hello_world" "en_US" None None 2
  = Some
      (mkBroadcastRun
         (mkBroadcastResult
            [("551", Decoded SUCCESS); ("553", Decoded SUCCESS)]%string
            [("552"%string,
              ApiError (mkWhatsAppError "Bad" (JNum 100) "100" 400 None))])
         3 [["551"; "552"; "553"]%string] []).
Proof. vm_compute. reflexivity. Qed.

(** C10: for a batch size of at least 1 the loop ends after
    ceil(length / batchSize) iterations, and the recipients of [succeeded]
    and [failed] together are the recipients, each occurrence once; for a
    batch size of 0 or less and a non-empty list it never ends, whatever
    the fuel; for the empty list it ends at once with both lists empty, no
    send issued and no delay waited. *)
Theorem broadcastTemplate_terminates
    (self : WhatsApp) (fetch : nat -> Fetch) (completion : nat -> nat -> list nat)
    (recipients : list string) (templateName languageCode : string)
    (components : option (list JSValue)) (options : option BroadcastOptions) :
  let size := default 50 (options ≫= batchSize) in
  let len := Z.of_nat (length recipients) in
  let run :=
    broadcastTemplate self fetch completion recipients templateName
      languageCode components options in
  (1 <= size ->
   (forall b n, completion b n ≡ₚ seq 0 n) ->
   forall fuel,
     (len + size - 1) / size < Z.of_nat fuel ->
     exists st,
       run fuel = Some st
       /\ Z.of_nat (length (sent st)) = (len + size - 1) / size
       /\ size * (Z.of_nat (length (sent st)) - 1) < len
          <= size * Z.of_nat (length (sent st))
       /\ (succeeded (outcome st)).*1 ++ (failed (outcome st)).*1
          ≡ₚ recipients)
  /\
  (size <= 0 -> recipients <> [] -> forall fuel, run fuel = None)
  /\
  (recipients = [] ->
   forall fuel, (0 < fuel)%nat ->
     run fuel = Some (mkBroadcastRun (mkBroadcastResult [] []) 0 [] [])).
Proof.
  intros size len run. split; [|split].
  - intros Hsize Hfair fuel Hfuel.
    assert (Hq : 0 <= (len + size - 1) / size) by (apply Z.div_pos; lia).
    assert (Hleft : Z.of_nat (batches_left recipients options 0)
                    = (len + size - 1) / size).
    { unfold batches_left. fold size. fold len.
      replace (len - Z.of_nat 0 + size - 1) with (len + size - 1) by lia. lia. }
    destruct (batch_loop_runs self fetch completion recipients templateName
                languageCode components options Hsize Hfair fuel 0
                (mkBroadcastRun (mkBroadcastResult [] []) 0 [] []))
      as (st & Hrun & Hs & Hf & Hn & Hc); [lia|].
    simpl in Hs, Hf, Hn, Hc. rewrite drop_0 in Hs, Hf.
    exists st. split; [exact Hrun|]. split; [lia|]. split.
    + rewrite Hn, Hleft.
      pose proof (Z.div_mod (len + size - 1) size ltac:(lia)) as Hdm.
      pose proof (Z.mod_pos_bound (len + size - 1) size ltac:(lia)) as Hmod.
      nia.
    + rewrite Hs, Hf, successes_failures_recipients.
      now rewrite settled_recipients.
  - intros Hsize Hne fuel. subst run. unfold broadcastTemplate.
    now apply batch_loop_stuck.
  - intros -> [|fuel] Hfuel; [lia|]. reflexivity.
Qed.

Lemma broadcastTemplate_terminates_witness :
  (exists st,
     broadcastTemplate test_client second_call_fails settle_in_reverse
       ["551"; "552"; "553"]%string "hello_world" "en_US" None
       (Some (mkBroadcastOptions (Some 2) None)) 3 = Some st
     /\ Z.of_nat (length (sent st)) = (3 + 2 - 1) / 2
     /\ 2 * (Z.of_nat (length (sent st)) - 1) < 3
        <= 2 * Z.of_nat (length (sent st))
     /\ (succeeded (outcome st)).*1 ++ (failed (outcome st)).*1
        ≡ₚ ["551"; "552"; "553"]%string)
  /\ broadcastTemplate test_client second_call_fails settle_in_reverse
       ["551"]%string "hello_world" "en_US" None
       (Some (mkBroadcastOptions (Some 0) None)) 1000 = None
  /\ broadcastTemplate test_client second_call_fails settle_in_reverse
       [] "hello_world" "en_US" None None 1
     = Some (mkBroadcastRun (mkBroadcastResult [] []) 0 [] []).
Proof.
  split; [|split].
  - apply (proj1 (broadcastTemplate_terminates test_client second_call_fails
                    settle_in_reverse ["551"; "552"; "553"]%string
                    "hello_world" "en_US" None
                    (Some (mkBroadcastOptions (Some 2) None)))).
    + simpl. lia.
    + exact settle_in_reverse_fair.
    + vm_compute. reflexivity.
  - apply (proj1 (proj2 (broadcastTemplate_terminates test_client
                           second_call_fails settle_in_reverse ["551"]%string
                           "hello_world" "en_US" None
                           (Some (mkBroadcastOptions (Some 0) None))))).
    + simpl. lia.
    + discriminate.
  - apply (proj2 (proj2 (broadcastTemplate_terminates test_client
                           second_call_fails settle_in_reverse []
                           "hello_world" "en_US" None None))).
    + reflexivity.
    + lia.
Defined.

(** Two batches of sizes 2 and 1, and one delay between them. *)
Example broadcast_two_batches :
  (fun r =>
     match r with
     | Some st => (sent st, slept st)
     | None => ([], [])
     end)
    (broadcastTemplate test_client second_call_fails settle_in_reverse
       ["551"; "552"; "553"]%string "hello_world" "en_US" None
       (Some (mkBroadcastOptions (Some 2) None)) 3)
  = ([["551"; "552"]; ["553"]]%string, [100]).
Proof. vm_compute. reflexivity. Qed.

End BroadcastFacts.

(** ** More on the request pipeline *)
Module RequestMore.

Lemma prefix_split (n h : string) :
  String.prefix n h = true -> exists post, h = n +:+ post.
Proof.
  revert h. induction n as [|a n IH]; intros h H.
  - exists h. reflexivity.
  - destruct h as [|b h]; simpl in H; [discriminate|].
    destruct (ascii_dec a b) as [->|]; [|discriminate].
    destruct (IH h H) as [post ->]. exists post. reflexivity.
Qed.

Lemma includes_unfold (n h : string) :
  includes n h
  = if String.prefix n h then true
    else match h with
         | EmptyString => false
         | String _ rest => includes n rest
         end.
Proof. destruct h; reflexivity. Qed.

(** [includes] is the substring test. *)
Lemma includes_spec (n h : string) :
  includes n h = true <-> exists pre post, h = pre +:+ n +:+ post.
Proof.
  split.
  - induction h as [|c h IH]; rewrite includes_unfold.
    + destruct (String.prefix n "") eqn:P; [|intro; discriminate].
      intros _. destruct (prefix_split _ _ P) as [post E].
      exists ""%string, post. exact E.
    + destruct (String.prefix n (String c h)) eqn:P.
      * intros _. destruct (prefix_split _ _ P) as [post E].
        exists ""%string, post. exact E.
      * intros H. destruct (IH H) as (pre & post & ->).
        exists (String c pre), post. reflexivity.
  - intros (pre & post & ->). induction pre as [|c pre IH].
    + change (includes n (n +:+ post) = true).
      now rewrite includes_unfold, SignatureFacts.prefix_append.
    + change (String c pre +:+ n +:+ post) with (String c (pre +:+ n +:+ post)).
      cbn [includes]. rewrite IH. now destruct (String.prefix n _).
Qed.

(** X1: the outcome of [request] is decided by one call of [fetch], at
    the URL [GRAPH_URL/apiVersion/path]: a rejection of that call is
    passed on as it is, and a response to it is all that the result depends
    on.  The call carries the method of the options ("POST" when absent or
    empty).  A multipart body is passed on as it is and no content type is
    set for it; a body that is [undefined], or no body, sends none and sets
    no content type; any other body is sent as JSON text with the header
    [Content-Type: application/json], which replaces a content type given
    by the caller.  The [Authorization] header is the bearer token unless
    the caller's headers define [Authorization], which then wins; every
    other header of the caller is passed on unchanged. *)
Theorem request_call (self : WhatsApp) (path : string)
    (options : option RequestOptions) :
  let given : gmap string string := default ∅ (options ≫= opt_headers) in
  let url := GRAPH_URL +:+ "/" +:+ apiVersion self +:+ "/" +:+ path in
  exists init : RequestInit,
    (forall (fetch : Fetch) (t : Thrown),
       fetch url init = Throw t ->
       request self fetch path options = Throw t)
    /\ (forall (fetch : Fetch) (r : Response),
         fetch url init = Ok r ->
         request self fetch path options
         = request self (answering r) path options)
    /\ init_method init = str_or (options ≫= opt_method) "POST"
    /\ init_body init
       = match options ≫= opt_body with
         | Some (FormDataBody parts) => Some (FormBody parts)
         | Some (DataBody JUndefined) | None => None
         | Some (DataBody v) => Some (JsonText v)
         end
    /\ init_headers init !! "Content-Type"%string
       = match options ≫= opt_body with
         | Some (FormDataBody _) | Some (DataBody JUndefined) | None =>
             given !! "Content-Type"%string
         | Some (DataBody _) => Some "application/json"%string
         end
    /\ init_headers init !! "Authorization"%string
       = Some (default ("Bearer " +:+ accessToken self)
                 (given !! "Authorization"%string))
    /\ (forall k : string,
          k <> "Authorization"%string -> k <> "Content-Type"%string ->
          init_headers init !! k = given !! k).
Proof.
  intros given url.
  assert (Hurl : baseUrl self +:+ "/" +:+ path = url).
  { unfold url, baseUrl. generalize (apiVersion self). intros ver.
    unfold GRAPH_URL. reflexivity. }
  assert (Hauth : (given ∪ {[ "Authorization"%string
                              := "Bearer " +:+ accessToken self ]})
                  !! "Authorization"%string
                  = Some (default ("Bearer " +:+ accessToken self)
                            (given !! "Authorization"%string))).
  { rewrite lookup_union, lookup_singleton_eq.
    destruct (given !! "Authorization"%string); reflexivity. }
  assert (Hother : forall k : string, k <> "Authorization"%string ->
            (given ∪ {[ "Authorization"%string
                        := "Bearer " +:+ accessToken self ]}) !! k
            = given !! k).
  { intros k Hk. rewrite lookup_union, lookup_singleton_ne by congruence.
    destruct (given !! k); reflexivity. }
  unfold request, answering. rewrite Hurl. fold given.
  set (hs := given ∪ {[ "Authorization"%string
                        := "Bearer " +:+ accessToken self ]}) in *.
  set (m := str_or (options ≫= opt_method) "POST").
  assert (Hjson : forall v,
    let init := mkRequestInit m
                  (<[ "Content-Type"%string := "application/json"%string ]> hs)
                  (Some (JsonText v)) in
    init_method init = m
    /\ init_body init = Some (JsonText v)
    /\ init_headers init !! "Content-Type"%string
       = Some "application/json"%string
    /\ init_headers init !! "Authorization"%string
       = Some (default ("Bearer " +:+ accessToken self)
                 (given !! "Authorization"%string))
    /\ (forall k : string,
          k <> "Authorization"%string -> k <> "Content-Type"%string ->
          init_headers init !! k = given !! k)).
  { intros v init. cbn [init init_method init_body init_headers].
    split; [reflexivity|]. split; [reflexivity|].
    split; [apply lookup_insert_eq|]. split.
    - rewrite lookup_insert_ne by discriminate. exact Hauth.
    - intros k Hk1 Hk2. rewrite lookup_insert_ne by congruence. auto. }
  assert (Hnone :
    let init := mkRequestInit m hs None in
    init_method init = m
    /\ init_body init = None
    /\ init_headers init !! "Content-Type"%string
       = given !! "Content-Type"%string
    /\ init_headers init !! "Authorization"%string
       = Some (default ("Bearer " +:+ accessToken self)
                 (given !! "Authorization"%string))
    /\ (forall k : string,
          k <> "Authorization"%string -> k <> "Content-Type"%string ->
          init_headers init !! k = given !! k)).
  { cbn [init_method init_body init_headers].
    split; [reflexivity|]. split; [reflexivity|].
    split; [apply Hother; discriminate|]. split; [exact Hauth|]. auto. }
  destruct (options ≫= opt_body) as [[parts|v]|].
  - exists (mkRequestInit m hs (Some (FormBody parts))).
    split; [intros fetch t F; now rewrite F|].
    split; [intros fetch r F; now rewrite F|].
    cbn [init_method init_body init_headers].
    split; [reflexivity|]. split; [reflexivity|].
    split; [apply Hother; discriminate|]. split; [exact Hauth|]. auto.
  - destruct v.
    1: { exists (mkRequestInit m hs None).
         split; [intros fetch t F; now rewrite F|].
         split; [intros fetch r F; now rewrite F|]. exact Hnone. }
    all: eexists;
      (split; [intros fetch t F; now rewrite F|]);
      (split; [intros fetch r F; now rewrite F|]); apply Hjson.
  - exists (mkRequestInit m hs None).
    split; [intros fetch t F; now rewrite F|].
    split; [intros fetch r F; now rewrite F|]. exact Hnone.
Qed.

Lemma request_call_witness :
  request test_client (fun _ _ => Throw (PlainError "offline")) "x/messages"
    None
  = Throw (PlainError "offline").
Proof.
  destruct (request_call test_client "x/messages" None)
    as (init & Hthrow & _).
  apply Hthrow. reflexivity.
Defined.

(** X2: a value returned by [request] always comes from a response with a
    status in [200,300): the response itself when its content type is not
    JSON, its decoded body otherwise.  What [request] throws is the
    rejection of [fetch] itself, or a [WhatsAppError] carrying the status
    of a response outside [200,300), or the [TypeError] that
    [fromApiResponse] throws on the body of such a response, or the
    decoding failure of a body in [200,300). *)
Theorem request_outcome (self : WhatsApp) (fetch : Fetch) (path : string)
    (options : option RequestOptions) :
  (forall p, request self fetch path options = Ok p ->
     exists url init r,
       fetch url init = Ok r /\ 200 <= status r < 300
       /\ ((p = RawResponse r
            /\ includes "application/json" (str_or (content_type r) "") = false)
           \/ (exists v, p = Decoded v /\ json r = Some v
               /\ includes "application/json" (str_or (content_type r) "")
                  = true)))
  /\
  (forall t, request self fetch path options = Throw t ->
     exists url init,
       fetch url init = Throw t
       \/ exists r,
            fetch url init = Ok r
            /\ ((~ 200 <= status r < 300
                 /\ ((exists e,
                        t = ApiError e /\ httpStatus e = status r
                        /\ fromApiResponse (default (JObj []) (json r))
                             (status r) = Ok e)
                     \/ (t = TypeError
                         /\ fromApiResponse (default (JObj []) (json r))
                              (status r) = Throw TypeError)))
                \/ (200 <= status r < 300 /\ t = SyntaxError
                    /\ json r = None))).
Proof.
  unfold request.
  match goal with
  | |- context [fetch ?u ?i] => set (url := u); set (init := i)
  end.
  destruct (fetch url init) as [r|e] eqn:F; cbn [bind].
  - destruct (ok r) eqn:Hok; cbn [negb].
    + apply RequestFacts.ok_status in Hok.
      destruct (includes "application/json" (str_or (content_type r) "")) eqn:Hct.
      * destruct (json r) as [v|] eqn:Hj; split.
        -- intros p [= <-]. exists url, init, r. eauto 10.
        -- discriminate.
        -- discriminate.
        -- intros t [= <-]. exists url, init. right. exists r. auto.
      * split; [|discriminate].
        intros p [= <-]. exists url, init, r. auto.
    + assert (Hbody : match json r with Some v => v | None => JObj [] end
                      = default (JObj []) (json r))
        by (destruct (json r); reflexivity).
      rewrite Hbody.
      assert (Hst : ~ 200 <= status r < 300)
        by (rewrite <- RequestFacts.ok_status; congruence).
      destruct (fromApiResponse (default (JObj []) (json r)) (status r))
        as [e|t0] eqn:E; cbn [bind].
      * split; [discriminate|].
        intros t [= <-]. exists url, init. right. exists r.
        split; [exact F|]. left. split; [exact Hst|]. left. exists e.
        split; [reflexivity|]. split; [|exact E].
        exact (ErrorsFacts.fromApiResponse_httpStatus _ _ _ E).
      * split; [discriminate|].
        intros t [= <-]. exists url, init. right. exists r.
        split; [exact F|]. left. split; [exact Hst|]. right.
        pose proof (ErrorsFacts.fromApiResponse_throws _ _ _ E) as ->.
        split; [reflexivity | exact E].
  - split; [discriminate|]. intros t [= <-]. exists url, init. now left.
Qed.

(** X3: for a response in [200,300) the body is decoded exactly when the
    content type header contains the text "application/json", whatever
    stands before or after it; with any other content type (a different
    case, or another JSON media type) the response is returned as it
    is. *)
Theorem request_json_content_type (self : WhatsApp) (path : string)
    (options : option RequestOptions) (r : Response) (ct : string) :
  200 <= status r < 300 ->
  content_type r = Some ct ->
  ((exists pre post, ct = pre +:+ "application/json" +:+ post) ->
   forall v, json r = Some v ->
     request self (answering r) path options = Ok (Decoded v))
  /\
  ((~ exists pre post, ct = pre +:+ "application/json" +:+ post) ->
   request self (answering r) path options = Ok (RawResponse r)).
Proof.
  intros Hst Hct. apply RequestFacts.ok_status in Hst.
  assert (Hstr : str_or (content_type r) "" = ct).
  { rewrite Hct. simpl. destruct (String.eqb ct "") eqn:E; [|reflexivity].
    apply String.eqb_eq in E. now subst. }
  unfold request, answering. cbn [bind]. rewrite Hst, Hstr. cbn [negb].
  split.
  - intros Hin v Hv. apply includes_spec in Hin. now rewrite Hin, Hv.
  - intros Hnot.
    destruct (includes "application/json" ct) eqn:E; [|reflexivity].
    destruct Hnot. now apply includes_spec.
Qed.

Lemma request_json_content_type_witness :
  request test_client
    (answering (mkResponse 200 (Some "application/json; charset=utf-8"%string)
                  (Some SUCCESS))) "x" None
  = Ok (Decoded SUCCESS)
  /\
  request test_client
    (answering (mkResponse 200 (Some "Application/JSON"%string) (Some SUCCESS)))
    "x" None
  = Ok (RawResponse (mkResponse 200 (Some "Application/JSON"%string)
                       (Some SUCCESS))).
Proof.
  split.
  - apply (proj1 (request_json_content_type test_client "x" None
                    (mkResponse 200
                       (Some "application/json; charset=utf-8"%string)
                       (Some SUCCESS))
                    "application/json; charset=utf-8"
                    ltac:(simpl; lia) eq_refl)).
    + exists ""%string, "; charset=utf-8"%string. reflexivity.
    + reflexivity.
  - apply (proj2 (request_json_content_type test_client "x" None
                    (mkResponse 200 (Some "Application/JSON"%string)
                       (Some SUCCESS))
                    "Application/JSON" ltac:(simpl; lia) eq_refl)).
    intros Hin. apply includes_spec in Hin. discriminate Hin.
Defined.

Lemma request_outcome_witness :
  exists url init r,
    answering (mkResponse 200 (Some "image/jpeg"%string) None) url init = Ok r
    /\ 200 <= status r < 300
    /\ ((RawResponse (mkResponse 200 (Some "image/jpeg"%string) None)
         = RawResponse r
         /\ includes "application/json" (str_or (content_type r) "") = false)
        \/ (exists v,
              RawResponse (mkResponse 200 (Some "image/jpeg"%string) None)
              = Decoded v /\ json r = Some v
              /\ includes "application/json" (str_or (content_type r) "")
                 = true)).
Proof.
  apply (proj1 (request_outcome test_client
                  (answering (mkResponse 200 (Some "image/jpeg"%string) None))
                  "media" None)).
  reflexivity.
Defined.

(** X21: a response with a status outside [200,300) whose error block
    has a plain code, sub-code, message and trace id makes [request] throw
    the [WhatsAppError] that [fromApiResponse] builds from the decoded
    body, or from the empty object when the body does not decode; it
    carries the status of the response.  In particular a failure whose
    body does not decode always gives code 0, title ["unknown"] and the
    fallback message. *)
Theorem request_failure_is_typed (self : WhatsApp) (path : string)
    (options : option RequestOptions) (r : Response) :
  let body := default (JObj []) (json r) in
  let err := error_block body in
  ~ 200 <= status r < 300 ->
  plain (prop err "code") = true ->
  plain (prop err "error_subcode") = true ->
  plain (prop err "message") = true ->
  plain (prop err "fbtrace_id") = true ->
  exists e,
    request self (answering r) path options = Throw (ApiError e)
    /\ fromApiResponse body (status r) = Ok e
    /\ httpStatus e = status r
    /\ (json r = None ->
        e = mkWhatsAppError "Unknown WhatsApp API error" (JNum 0) "unknown"
              (status r) None).
Proof.
  intros body err Hst Pc Ps Pm Pt.
  pose proof (ErrorsFacts.fromApiResponse_plain body (status r) Pc Ps Pm Pt)
    as E.
  eexists. split; [|split; [exact E|split; [reflexivity|]]].
  - unfold request, answering. cbn [bind].
    rewrite <- RequestFacts.ok_status in Hst.
    apply not_true_is_false in Hst. rewrite Hst. cbn [negb].
    replace (match json r with Some v => v | None => JObj [] end) with body
      by (unfold body; destruct (json r); reflexivity).
    rewrite E. reflexivity.
  - intros Hj. subst err body. rewrite Hj. reflexivity.
Qed.

Lemma request_failure_is_typed_witness :
  exists e,
    request test_client
      (answering (mkResponse 500 (Some "text/html"%string) None)) "x/messages"
      None
    = Throw (ApiError e)
    /\ fromApiResponse (JObj []) 500 = Ok e
    /\ httpStatus e = 500
    /\ (@None JSValue = None ->
        e = mkWhatsAppError "Unknown WhatsApp API error" (JNum 0) "unknown"
              500 None).
Proof.
  apply (request_failure_is_typed test_client "x/messages" None
           (mkResponse 500 (Some "text/html"%string) None));
    [simpl; lia | reflexivity | reflexivity | reflexivity | reflexivity].
Defined.

End RequestMore.

(** ** Message bodies and the other client methods *)
Module MethodsFacts.

(** *** Object literals: assignment and spread *)

Lemma lookup_set_prop_eq (k : string) (v : JSValue) props :
  lookup_prop k (set_prop k v props) = v.
Proof.
  induction props as [|[k' v'] props IH]; simpl.
  - now rewrite String.eqb_refl.
  - destruct (String.eqb k k') eqn:E; simpl; rewrite ?String.eqb_refl, ?E; auto.
Qed.

Lemma lookup_set_prop_ne (k k' : string) (v : JSValue) props :
  k <> k' -> lookup_prop k (set_prop k' v props) = lookup_prop k props.
Proof.
  intros Hne. induction props as [|[k2 v2] props IH]; simpl.
  - now rewrite (proj2 (String.eqb_neq k k') Hne).
  - destruct (String.eqb k' k2) eqn:E; simpl.
    + apply String.eqb_eq in E. subst k2.
      now rewrite (proj2 (String.eqb_neq k k') Hne).
    + destruct (String.eqb k k2); auto.
Qed.

Lemma has_key_app (k : string) (l1 l2 : list (string * JSValue)) :
  has_key k (l1 ++ l2) = has_key k l1 || has_key k l2.
Proof. apply existsb_app. Qed.

Lemma has_key_rev (k : string) (l : list (string * JSValue)) :
  has_key k (rev l) = has_key k l.
Proof.
  induction l as [|kv l IH]; simpl; [reflexivity|].
  rewrite has_key_app, IH. simpl. now rewrite orb_false_r, orb_comm.
Qed.

Lemma lookup_prop_app (k : string) (l1 l2 : list (string * JSValue)) :
  lookup_prop k (l1 ++ l2)
  = if has_key k l1 then lookup_prop k l1 else lookup_prop k l2.
Proof.
  induction l1 as [|[k' v'] l1 IH]; simpl; [reflexivity|].
  destruct (String.eqb k k'); simpl; auto.
Qed.

(** In [{ ...props, ...extra }] a name has the last value [extra] gives
    it, and the value of [props] when [extra] does not give one. *)
Lemma lookup_spread (extra props : list (string * JSValue)) (k : string) :
  lookup_prop k (spread props extra)
  = if has_key k extra then lookup_prop k (rev extra) else lookup_prop k props.
Proof.
  unfold spread. revert props.
  induction extra as [|[k1 v1] extra IH]; intros props; simpl; [reflexivity|].
  rewrite IH, lookup_prop_app, has_key_rev.
  destruct (has_key k extra); simpl; [now rewrite orb_true_r|].
  rewrite orb_false_r.
  destruct (String.eqb k k1) eqn:E.
  - apply String.eqb_eq in E. subst k1. apply lookup_set_prop_eq.
  - apply String.eqb_neq in E. now apply lookup_set_prop_ne.
Qed.

(** X4: every message goes by [request] to [{phoneNumberId}/messages] as
    a JSON body, by POST.  The body has [messaging_product: "whatsapp"],
    [recipient_type: "individual"], the recipient and the type, each one
    unless the content defines a property of that name, which then
    replaces it; the properties of the content with the (last) value the
    content gives them; and [context: { message_id }] exactly when a
    non-empty [replyTo] is given, which replaces a [context] of the
    content. *)
Theorem sendMessage_body (self : WhatsApp) (to ty : string)
    (content : list (string * JSValue)) (options : option SendMessageOptions) :
  let reply := options ≫= replyTo in
  exists body,
    (forall fetch,
       sendMessage self fetch to ty content options
       = request self fetch (phoneNumberId self +:+ "/messages")
           (json_body (JObj body)))
    /\ (has_key "messaging_product" content = false ->
        lookup_prop "messaging_product" body = JStr "whatsapp")
    /\ (has_key "recipient_type" content = false ->
        lookup_prop "recipient_type" body = JStr "individual")
    /\ (has_key "to" content = false -> lookup_prop "to" body = JStr to)
    /\ (has_key "type" content = false -> lookup_prop "type" body = JStr ty)
    /\ (forall k, has_key k content = true ->
          k <> "context"%string \/ field_truthy reply = false ->
          lookup_prop k body = lookup_prop k (rev content))
    /\ (forall r, reply = Some r -> r <> ""%string ->
          lookup_prop "context" body = JObj [("message_id"%string, JStr r)])
    /\ (field_truthy reply = false -> has_key "context" content = false ->
        lookup_prop "context" body = JUndefined).
Proof.
  intros reply. unfold sendMessage. fold reply.
  set (base := [("messaging_product", JStr "whatsapp");
                ("recipient_type", JStr "individual");
                ("to", JStr to); ("type", JStr ty)]%string).
  set (plain := spread base content).
  assert (Hbase : forall k, has_key k content = false ->
                            lookup_prop k plain = lookup_prop k base).
  { intros k Hk. subst plain. now rewrite lookup_spread, Hk. }
  assert (Hcont : forall k, has_key k content = true ->
                            lookup_prop k plain = lookup_prop k (rev content)).
  { intros k Hk. subst plain. now rewrite lookup_spread, Hk. }
  destruct reply as [r|] eqn:R; [destruct (String.eqb r "") eqn:E|].
  - exists plain. split; [reflexivity|].
    repeat (split; [intros Hk; now rewrite Hbase|]).
    split; [intros k Hk _; now apply Hcont|].
    split.
    + intros r' [= <-] Hne. apply String.eqb_neq in Hne. congruence.
    + intros _ Hk. now rewrite Hbase.
  - exists (set_prop "context" (JObj [("message_id"%string, JStr r)]) plain).
    split; [reflexivity|].
    repeat (split; [intros Hk; rewrite lookup_set_prop_ne by discriminate;
                    now rewrite Hbase|]).
    split.
    + intros k Hk [Hne|Hf].
      * rewrite lookup_set_prop_ne by exact Hne. now apply Hcont.
      * simpl in Hf. rewrite E in Hf. discriminate.
    + split.
      * intros r' [= <-] _. apply lookup_set_prop_eq.
      * simpl. rewrite E. discriminate.
  - exists plain. split; [reflexivity|].
    repeat (split; [intros Hk; now rewrite Hbase|]).
    split; [intros k Hk _; now apply Hcont|].
    split; [discriminate|].
    intros _ Hk. now rewrite Hbase.
Qed.

(** A text message that replies to another one. *)
Lemma sendMessage_body_witness :
  exists body,
    (forall fetch,
       sendMessage test_client fetch "551" "text"
         [("text"%string, JObj [("body"%string, JStr "hi")])]
         (Some (mkSendMessageOptions (Some "wamid.1"%string) None))
       = request test_client fetch (phoneNumberId test_client +:+ "/messages")
           (json_body (JObj body)))
    /\ lookup_prop "to" body = JStr "551"
    /\ lookup_prop "type" body = JStr "text"
    /\ lookup_prop "text" body = JObj [("body"%string, JStr "hi")]
    /\ lookup_prop "context" body
       = JObj [("message_id"%string, JStr "wamid.1")].
Proof.
  destruct (sendMessage_body test_client "551" "text"
              [("text"%string, JObj [("body"%string, JStr "hi")])]
              (Some (mkSendMessageOptions (Some "wamid.1"%string) None)))
    as (body & Hsend & _ & _ & Hto & Hty & Hcontent & Hreply & _).
  exists body. split; [exact Hsend|].
  split; [apply Hto; reflexivity|].
  split; [apply Hty; reflexivity|].
  split.
  - apply (Hcontent "text"%string); [reflexivity|]. left. discriminate.
  - apply (Hreply "wamid.1"%string); [reflexivity|discriminate].
Defined.

(** X20: [sendTemplate] posts to [{phoneNumberId}/messages] a body with
    [messaging_product: "whatsapp"], the recipient, the type "template",
    no [context], and a [template] object holding the name, the language
    code and, exactly when components are given (an empty list included),
    the components as they are. *)
Theorem sendTemplate_body (self : WhatsApp) (to name languageCode : string)
    (components : option (list JSValue)) :
  exists body template,
    (forall fetch,
       sendTemplate self fetch to name languageCode components
       = request self fetch (phoneNumberId self +:+ "/messages")
           (json_body (JObj body)))
    /\ lookup_prop "messaging_product" body = JStr "whatsapp"
    /\ lookup_prop "recipient_type" body = JStr "individual"
    /\ lookup_prop "to" body = JStr to
    /\ lookup_prop "type" body = JStr "template"
    /\ lookup_prop "context" body = JUndefined
    /\ lookup_prop "template" body = JObj template
    /\ lookup_prop "name" template = JStr name
    /\ prop (lookup_prop "language" template) "code" = JStr languageCode
    /\ lookup_prop "components" template
       = from_option JArr JUndefined components
    /\ (forall k, has_key k body = true ->
          In k ["messaging_product"; "recipient_type"; "to"; "type";
                "template"]%string).
Proof.
  unfold sendTemplate, sendMessage. cbn [mbind option_bind].
  set (template :=
         match components with
         | Some cs =>
             set_prop "components" (JArr cs)
               [("name", JStr name);
                ("language", JObj [("code", JStr languageCode)])]%string
         | None =>
             [("name", JStr name);
              ("language", JObj [("code", JStr languageCode)])]%string
         end).
  eexists _, template. split; [intros fetch; reflexivity|].
  cbn [spread foldl set_prop fst snd lookup_prop String.eqb Ascii.eqb Bool.eqb].
  repeat (split; [reflexivity|]).
  split; [subst template; now destruct components|].
  split; [subst template; now destruct components|].
  split; [subst template; now destruct components|].
  intros k. unfold has_key. cbn [existsb fst].
  rewrite !orb_true_iff, !String.eqb_eq. cbn [In].
  intuition (auto; discriminate).
Qed.

(** *** Methods that need the account identifier *)

Lemma no_wabaId_true (self : WhatsApp) :
  no_wabaId self = true <-> wabaId self = None \/ wabaId self = Some ""%string.
Proof.
  unfold no_wabaId. destruct (wabaId self) as [w|].
  - rewrite String.eqb_eq. split.
    + intros ->. now right.
    + intros [|[= ->]]; [discriminate|reflexivity].
  - split; auto.
Qed.

(** X5: the methods that work on the business account throw their
    "wabaId is required" error, and make no request at all, when the
    client has no account identifier or an empty one; with a non-empty
    identifier [w] each one is the request to its resource under [w]. *)
Theorem wabaId_required (self : WhatsApp) :
  (wabaId self = None \/ wabaId self = Some ""%string ->
   forall (fetch : Fetch) template name categories,
     createTemplate self fetch template
     = Throw (PlainError "wabaId is required for template management")
     /\ getHealthStatus self fetch
        = Throw (PlainError "wabaId is required for health status")
     /\ listPhoneNumbers self fetch
        = Throw (PlainError "wabaId is required for listing phone numbers")
     /\ createFlow self fetch name categories
        = Throw (PlainError "wabaId is required for flow management")
     /\ listFlows self fetch
        = Throw (PlainError "wabaId is required for flow management"))
  /\
  (forall w, wabaId self = Some w -> w <> ""%string ->
   forall (fetch : Fetch) template name categories,
     createTemplate self fetch template
     = request self fetch (w +:+ "/message_templates") (json_body template)
     /\ getHealthStatus self fetch
        = request self fetch (w +:+ "?fields=health_status") GET
     /\ listPhoneNumbers self fetch
        = request self fetch (w +:+ "/phone_numbers") GET
     /\ createFlow self fetch name categories
        = request self fetch (w +:+ "/flows")
            (json_body (JObj [("name", JStr name);
                              ("categories", JArr (map JStr categories))]%string))
     /\ listFlows self fetch = request self fetch (w +:+ "/flows") GET).
Proof.
  split.
  - intros Hno fetch template name categories.
    apply no_wabaId_true in Hno.
    unfold createTemplate, getHealthStatus, listPhoneNumbers, createFlow,
      listFlows. rewrite Hno. auto.
  - intros w Hw Hne fetch template name categories.
    assert (Hno : no_wabaId self = false).
    { unfold no_wabaId. rewrite Hw. now apply String.eqb_neq. }
    unfold createTemplate, getHealthStatus, listPhoneNumbers, createFlow,
      listFlows. rewrite Hno, Hw. auto.
Qed.

Lemma wabaId_required_witness :
  getHealthStatus test_client (answering (mkResponse 200 None None))
  = Throw (PlainError "wabaId is required for health status")
  /\ listFlows (mkWhatsApp "1" "t" "v25.0" (Some "77"%string))
       (answering (mkResponse 200 None None))
     = request (mkWhatsApp "1" "t" "v25.0" (Some "77"%string))
         (answering (mkResponse 200 None None)) "77/flows" GET.
Proof.
  split.
  - apply (proj1 (wabaId_required test_client) (or_introl eq_refl)
             (answering (mkResponse 200 None None)) JNull ""%string []).
  - apply (proj2 (wabaId_required (mkWhatsApp "1" "t" "v25.0" (Some "77"%string)))
             "77"%string eq_refl ltac:(discriminate)
             (answering (mkResponse 200 None None)) JNull ""%string []).
Defined.

(** *** Reading the first entry of [data] *)

Lemma first_of_data_truthy (res : Payload) (v : JSValue) :
  first_of_data res = Ok v -> truthy v = true.
Proof.
  unfold first_of_data.
  destruct (match res with
            | Decoded v0 => get v0 "data"
            | RawResponse _ => Ok JUndefined
            end) as [data|e]; cbn [bind]; [|discriminate].
  intros [= <-]. unfold or_else.
  destruct (truthy (if nullish data then JUndefined else index0 data)) eqn:T;
    [exact T|reflexivity].
Qed.

(** X6: [getBusinessProfile] and [getCommerceSettings] never return a
    falsy value.  On a JSON answer in [200,300) whose [data] is a list
    with a truthy first entry they return that entry; when [data] is
    missing or empty they return the empty object; when the answer is not
    JSON they return the empty object; and when the JSON body is [null]
    they throw a [TypeError]. *)
Theorem first_entry_or_empty (self : WhatsApp) (fields : option (list string)) :
  (forall fetch v,
     getBusinessProfile self fetch fields = Ok v
     \/ getCommerceSettings self fetch = Ok v ->
     truthy v = true)
  /\
  (forall r : Response,
     200 <= status r < 300 ->
     let profile := getBusinessProfile self (answering r) fields in
     let commerce := getCommerceSettings self (answering r) in
     (includes "application/json" (str_or (content_type r) "") = false ->
      profile = Ok (JObj []) /\ commerce = Ok (JObj []))
     /\
     (includes "application/json" (str_or (content_type r) "") = true ->
      (forall props first rest,
         json r = Some (JObj props) ->
         lookup_prop "data" props = JArr (first :: rest) ->
         truthy first = true ->
         profile = Ok first /\ commerce = Ok first)
      /\ (forall props,
            json r = Some (JObj props) ->
            lookup_prop "data" props = JArr []
            \/ lookup_prop "data" props = JUndefined ->
            profile = Ok (JObj []) /\ commerce = Ok (JObj []))
      /\ (json r = Some JNull ->
          profile = Throw TypeError /\ commerce = Throw TypeError))).
Proof.
  split.
  - intros fetch v [H|H];
      [unfold getBusinessProfile in H|unfold getCommerceSettings in H];
      match type of H with
      | bind ?req _ = _ => destruct req as [res|e]; cbn [bind] in H;
                           [|discriminate]
      end; eapply first_of_data_truthy; exact H.
  - intros r Hst profile commerce. subst profile commerce.
    apply RequestFacts.ok_status in Hst.
    unfold getBusinessProfile, getCommerceSettings, request, answering.
    cbn [bind]. rewrite Hst. cbn [negb].
    split.
    + intros ->. split; reflexivity.
    + intros ->. split; [|split].
      * intros props first rest -> Hdata Hfirst. cbn [bind].
        unfold first_of_data. cbn [get nullish prop bind]. rewrite Hdata.
        cbn [nullish index0]. unfold or_else. rewrite Hfirst. auto.
      * intros props -> Hdata. cbn [bind].
        unfold first_of_data. cbn [get nullish prop bind].
        destruct Hdata as [-> | ->]; auto.
      * intros ->. split; reflexivity.
Qed.

Lemma first_entry_or_empty_witness :
  getBusinessProfile test_client
    (answering
       (mkResponse 200 (Some "application/json"%string)
          (Some (JObj [("data"%string,
                        JArr [JObj [("about"%string, JStr "Hi")]])]))))
    None
  = Ok (JObj [("about"%string, JStr "Hi")])
  /\ getCommerceSettings test_client
       (answering (mkResponse 200 (Some "application/json"%string)
                     (Some (JObj []))))
     = Ok (JObj [])
  /\ getBusinessProfile test_client
       (answering (mkResponse 200 (Some "application/json"%string) (Some JNull)))
       (Some ["about"%string])
     = Throw TypeError.
Proof.
  split; [|split].
  - pose proof (proj2 (first_entry_or_empty test_client None)
                  (mkResponse 200 (Some "application/json"%string)
                     (Some (JObj [("data"%string,
                                   JArr [JObj [("about"%string, JStr "Hi")]])])))
                  ltac:(simpl; lia)) as [_ H].
    destruct (H eq_refl) as [H1 _].
    exact (proj1 (H1 _ _ [] eq_refl eq_refl eq_refl)).
  - pose proof (proj2 (first_entry_or_empty test_client None)
                  (mkResponse 200 (Some "application/json"%string)
                     (Some (JObj [])))
                  ltac:(simpl; lia)) as [_ H].
    destruct (H eq_refl) as (_ & H2 & _).
    exact (proj2 (H2 [] eq_refl (or_intror eq_refl))).
  - pose proof (proj2 (first_entry_or_empty test_client (Some ["about"%string]))
                  (mkResponse 200 (Some "application/json"%string) (Some JNull))
                  ltac:(simpl; lia)) as [_ H].
    destruct (H eq_refl) as (_ & _ & H3).
    exact (proj1 (H3 eq_refl)).
Defined.

(** *** Media download *)

Section DownloadFacts.

Variable arrayBuffer : Response -> result (list Byte.byte).

(** X7: [downloadMedia] asks for the URL it is given, as it is.  On a
    response outside [200,300) it throws a [WhatsAppError] whose code and
    HTTP status are both the status of the response, with the title "Media
    download error" and no details: the body of the response is not read,
    so two failures with the same status give the same error.  On a
    response in [200,300) it returns the bytes of the body, whatever the
    content type. *)
Theorem downloadMedia_outcome (self : WhatsApp) (url : string) (r : Response) :
  (~ 200 <= status r < 300 ->
   downloadMedia arrayBuffer self (answering r) url
   = Throw (ApiError
              (mkWhatsAppError
                 ("Media download failed: " +:+ string_of_Z (status r))
                 (JNum (status r)) "Media download error" (status r) None))
   /\ forall r', status r' = status r ->
        downloadMedia arrayBuffer self (answering r') url
        = downloadMedia arrayBuffer self (answering r) url)
  /\
  (200 <= status r < 300 ->
   downloadMedia arrayBuffer self (answering r) url = arrayBuffer r)
  /\
  (forall fetch : Fetch,
     downloadMedia arrayBuffer self fetch url
     = downloadMedia arrayBuffer self
         (fun _ _ =>
            fetch url
              (mkRequestInit "GET"
                 {[ "Authorization"%string := "Bearer " +:+ accessToken self ]}
                 None))
         url).
Proof.
  unfold downloadMedia, answering. cbn [bind].
  split; [|split].
  - intros Hst. rewrite <- RequestFacts.ok_status in Hst.
    apply not_true_is_false in Hst. rewrite Hst. cbn [negb].
    split; [reflexivity|].
    intros r' Hr'. unfold ok in *. rewrite Hr', Hst. reflexivity.
  - intros Hst. apply RequestFacts.ok_status in Hst. now rewrite Hst.
  - reflexivity.
Qed.

End DownloadFacts.

Lemma downloadMedia_outcome_witness :
  downloadMedia (fun _ => Ok []) test_client
    (answering (mkResponse 404 (Some "application/json"%string)
                  (Some bad_request_body)))
    "https://cdn.example/media"
  = Throw (ApiError
             (mkWhatsAppError "Media download failed: 404" (JNum 404)
                "Media download error" 404 None))
  /\ downloadMedia (fun _ => Ok []) test_client
       (answering (mkResponse 200 (Some "image/jpeg"%string) None))
       "https://cdn.example/media"
     = Ok [].
Proof.
  split.
  - apply (proj1 (proj1 (downloadMedia_outcome (fun _ => Ok []) test_client
                           "https://cdn.example/media"
                           (mkResponse 404 (Some "application/json"%string)
                              (Some bad_request_body)))
                   ltac:(simpl; lia))).
  - apply (proj1 (proj2 (downloadMedia_outcome (fun _ => Ok []) test_client
                           "https://cdn.example/media"
                           (mkResponse 200 (Some "image/jpeg"%string) None)))
             ltac:(simpl; lia)).
Defined.

End MethodsFacts.

(** ** More on the broadcast dispatcher *)
Module BroadcastMore.

Import BroadcastFacts.

(** The recipients of the fulfilled sends, and of the rejected ones, come
    in the order of the sends. *)
Lemma successes_sublist (l : list (string * result Payload)) :
  (successes l).*1 `sublist_of` l.*1.
Proof.
  induction l as [|[to [v|e]] l IH]; simpl.
  - constructor.
  - now apply sublist_skip.
  - now apply sublist_cons.
Qed.

Lemma failures_sublist (l : list (string * result Payload)) :
  (failures l).*1 `sublist_of` l.*1.
Proof.
  induction l as [|[to [v|e]] l IH]; simpl.
  - constructor.
  - now apply sublist_cons.
  - now apply sublist_skip.
Qed.

Section Trace.

Variable self : WhatsApp.
Variable fetch : nat -> Fetch.
Variable completion : nat -> nat -> list nat.
Variable recipients : list string.
Variables templateName languageCode : string.
Variable components : option (list JSValue).
Variable options : option BroadcastOptions.

Local Abbreviation size := (default 50 (options ≫= batchSize)).
Local Abbreviation pause := (default 100 (options ≫= delayMs)).
Local Abbreviation len := (Z.of_nat (length recipients)).
Local Abbreviation loop :=
  (batch_loop self fetch completion recipients templateName languageCode
     components options).
Local Abbreviation left_from := (batches_left recipients options).
Local Abbreviation cut :=
  (fun k j => take (Z.to_nat size) (drop (k + j * Z.to_nat size) recipients)).

(** The loop from index [k] on, by what it does: the batches it sends, the
    delays it waits and the calls it makes. *)
Lemma batch_loop_trace :
  1 <= size ->
  (forall b n, completion b n ≡ₚ seq 0 n) ->
  forall fuel k st,
    (left_from k < fuel)%nat ->
    exists st',
      loop fuel (Z.of_nat k) st = Some st'
      /\ sent st' = sent st ++ map (cut k) (seq 0 (left_from k))
      /\ slept st'
         = slept st
           ++ (if 0 <? pause then replicate (left_from k - 1) pause else [])
      /\ calls st' = (calls st + length (drop k recipients))%nat.
Proof.
  intros Hsize Hfair.
  induction fuel as [|fuel IH]; intros k st Hfuel; [lia|].
  cbn [batch_loop].
  destruct (Z.of_nat k <? len) eqn:Hk.
  - apply Z.ltb_lt in Hk.
    rewrite (slice_batch recipients options) by lia.
    set (batch := take (Z.to_nat size) (drop k recipients)).
    rewrite allSettled_any_order
      by (rewrite issue_length; apply Hfair).
    rewrite collect_settled. cbn [outcome calls sent slept].
    pose proof (batches_left_step recipients options k Hsize ltac:(lia)) as Hstep.
    rewrite Hstep in Hfuel |- *.
    replace (Z.of_nat k + size) with (Z.of_nat (k + Z.to_nat size)) by lia.
    assert (Hdrop : drop k recipients
                    = batch ++ drop (k + Z.to_nat size) recipients).
    { subst batch. now rewrite <- drop_drop, take_drop. }
    assert (Hmore : (Z.of_nat (k + Z.to_nat size) <? len) = true ->
                    (1 <= left_from (k + Z.to_nat size))%nat).
    { intros H. apply Z.ltb_lt in H.
      rewrite (batches_left_step recipients options (k + Z.to_nat size))
        by lia. lia. }
    assert (Hlast : (Z.of_nat (k + Z.to_nat size) <? len) = false ->
                    left_from (k + Z.to_nat size) = 0%nat).
    { intros H. apply Z.ltb_ge in H.
      apply batches_left_done; lia. }
    match goal with
    | |- context [loop fuel _ ?s] =>
        destruct (IH (k + Z.to_nat size)%nat s) as (st' & Hrun & Hs & Hp & Hc);
          [lia|]
    end.
    exists st'. split; [exact Hrun|].
    assert (Hcut : map (cut k) (seq 0 (S (left_from (k + Z.to_nat size))))
                   = batch :: map (cut (k + Z.to_nat size)%nat)
                                (seq 0 (left_from (k + Z.to_nat size)))).
    { cbn [seq map]. f_equal.
      - subst batch. now rewrite Nat.add_0_r.
      - rewrite <- seq_shift, map_map. apply map_ext. intros j.
        f_equal. f_equal. lia. }
    rewrite Hcut, Hdrop, length_app.
    destruct (Z.of_nat (k + Z.to_nat size) <? len) eqn:Hnext;
      destruct (0 <? pause) eqn:Hpause;
      cbn [andb outcome calls sent slept] in Hs, Hp, Hc;
      rewrite Hs, Hp, Hc, <- ?app_assoc; cbn [app];
      (split; [reflexivity|]); (split; [|lia]).
    + specialize (Hmore eq_refl).
      destruct (left_from (k + Z.to_nat size)) as [|n]; [lia|].
      cbn [Nat.sub]. replace (n - 0)%nat with n by lia. reflexivity.
    + reflexivity.
    + rewrite (Hlast eq_refl). reflexivity.
    + reflexivity.
  - apply Z.ltb_ge in Hk.
    exists st. rewrite batches_left_done by lia.
    rewrite drop_ge by lia. cbn [seq map length Nat.sub replicate].
    rewrite !app_nil_r, Nat.add_0_r.
    destruct (0 <? pause); rewrite ?app_nil_r; auto.
Qed.

Lemma batches_left_all :
  1 <= size -> Z.of_nat (left_from 0) = (len + size - 1) / size.
Proof.
  intros Hsize. unfold batches_left.
  assert (0 <= (len + size - 1) / size) by (apply Z.div_pos; lia).
  replace (len - Z.of_nat 0 + size - 1) with (len + size - 1) by lia. lia.
Qed.

(** With a batch size of at least 1 and sends that all settle, a
    broadcast ends, and this is all it has done. *)
Lemma run_summary :
  1 <= size ->
  (forall b n, completion b n ≡ₚ seq 0 n) ->
  forall fuel,
    (len + size - 1) / size < Z.of_nat fuel ->
    exists st,
      broadcastTemplate self fetch completion recipients templateName
        languageCode components options fuel = Some st
      /\ succeeded (outcome st)
         = successes (settled self fetch templateName languageCode components
                        0 recipients)
      /\ failed (outcome st)
         = failures (settled self fetch templateName languageCode components
                       0 recipients)
      /\ sent st = map (cut 0%nat) (seq 0 (left_from 0))
      /\ concat (sent st) = recipients
      /\ slept st
         = (if 0 <? pause then replicate (left_from 0 - 1) pause else [])
      /\ calls st = length recipients.
Proof.
  intros Hsize Hfair fuel Hfuel.
  pose proof (batches_left_all Hsize) as Hall.
  unfold broadcastTemplate.
  destruct (batch_loop_runs self fetch completion recipients templateName
              languageCode components options Hsize Hfair fuel 0
              (mkBroadcastRun (mkBroadcastResult [] []) 0 [] []))
    as (st & Hrun & Hs & Hf & _ & Hc); [lia|].
  destruct (batch_loop_trace Hsize Hfair fuel 0
              (mkBroadcastRun (mkBroadcastResult [] []) 0 [] []))
    as (st' & Hrun' & Hsent & Hslept & Hcalls); [lia|].
  change (Z.of_nat 0) with 0 in Hrun, Hrun'.
  rewrite Hrun in Hrun'. injection Hrun' as <-.
  exists st. cbn [outcome calls sent slept app] in *.
  rewrite drop_0 in Hs, Hf, Hc, Hcalls. auto 10.
Qed.

End Trace.

(** X8: the recipients are sent in consecutive batches: batch number [j]
    holds the [batchSize] recipients from position [j * batchSize] on, or
    those that are left.  So no batch is empty, none is larger than
    [batchSize], all but the last are full, and put end to end they are
    the recipients. *)
Theorem broadcastTemplate_batches
    (self : WhatsApp) (fetch : nat -> Fetch) (completion : nat -> nat -> list nat)
    (recipients : list string) (templateName languageCode : string)
    (components : option (list JSValue)) (options : option BroadcastOptions)
    (fuel : nat) :
  let size := default 50 (options ≫= batchSize) in
  let len := Z.of_nat (length recipients) in
  1 <= size ->
  (forall b n, completion b n ≡ₚ seq 0 n) ->
  (len + size - 1) / size < Z.of_nat fuel ->
  exists st,
    broadcastTemplate self fetch completion recipients templateName
      languageCode components options fuel = Some st
    /\ (forall j batch,
          sent st !! j = Some batch ->
          batch = take (Z.to_nat size) (drop (j * Z.to_nat size) recipients)
          /\ batch <> []
          /\ Z.of_nat (length batch) <= size
          /\ ((S j < length (sent st))%nat -> Z.of_nat (length batch) = size))
    /\ concat (sent st) = recipients.
Proof.
  intros size len Hsize Hfair Hfuel.
  destruct (run_summary self fetch completion recipients templateName
              languageCode components options Hsize Hfair fuel Hfuel)
    as (st & Hrun & _ & _ & Hsent & Hcat & _ & _).
  exists st. split; [exact Hrun|]. split; [|exact Hcat].
  pose proof (batches_left_all recipients options Hsize) as Hall.
  fold size len in Hall.
  set (n := batches_left recipients options 0) in *.
  assert (Hceil : size * (Z.of_nat n - 1) < len).
  { pose proof (Z.div_mod (len + size - 1) size ltac:(lia)) as Hdm.
    pose proof (Z.mod_pos_bound (len + size - 1) size ltac:(lia)) as Hmod.
    nia. }
  clearbody n. subst size len.
  set (bs := default 50 (options ≫= batchSize)) in *.
  intros j batch Hj. rewrite Hsent in Hj.
  rewrite list_lookup_fmap in Hj.
  destruct (seq 0 n !! j) as [j'|] eqn:Hseq; [|discriminate].
  apply lookup_seq in Hseq as [-> Hlt]. injection Hj as <-.
  cbn [Nat.add].
  set (b := take (Z.to_nat bs) (drop (j * Z.to_nat bs) recipients)).
  assert (Hpos : Z.of_nat j * bs < Z.of_nat (length recipients)) by nia.
  assert (Hlen : Z.of_nat (length b)
                 = Z.min bs (Z.of_nat (length recipients) - Z.of_nat j * bs)).
  { subst b. rewrite length_take, length_drop. nia. }
  split; [reflexivity|]. split; [|split].
  - intros E. rewrite E in Hlen. simpl in Hlen. lia.
  - lia.
  - rewrite Hsent, length_map, length_seq. intros Hnext. nia.
Qed.

Lemma broadcastTemplate_batches_witness :
  exists st,
    broadcastTemplate test_client second_call_fails settle_in_reverse
      ["551"; "552"; "553"]%string "hello_world" "en_US" None
      (Some (mkBroadcastOptions (Some 2) None)) 3 = Some st
    /\ (forall j batch,
          sent st !! j = Some batch ->
          batch = take (Z.to_nat 2) (drop (j * Z.to_nat 2)
                                       ["551"; "552"; "553"]%string)
          /\ batch <> []
          /\ Z.of_nat (length batch) <= 2
          /\ ((S j < length (sent st))%nat -> Z.of_nat (length batch) = 2))
    /\ concat (sent st) = ["551"; "552"; "553"]%string.
Proof.
  apply (broadcastTemplate_batches test_client second_call_fails
           settle_in_reverse ["551"; "552"; "553"]%string "hello_world" "en_US"
           None (Some (mkBroadcastOptions (Some 2) None)) 3).
  - simpl. lia.
  - exact settle_in_reverse_fair.
  - vm_compute. reflexivity.
Defined.

(** X9: between two consecutive batches, and only there, the dispatcher
    waits [delayMs] once: a broadcast of [n] batches waits [n - 1] times,
    and never when [delayMs] is 0 or less. *)
Theorem broadcastTemplate_pacing
    (self : WhatsApp) (fetch : nat -> Fetch) (completion : nat -> nat -> list nat)
    (recipients : list string) (templateName languageCode : string)
    (components : option (list JSValue)) (options : option BroadcastOptions)
    (fuel : nat) :
  let size := default 50 (options ≫= batchSize) in
  let pause := default 100 (options ≫= delayMs) in
  let len := Z.of_nat (length recipients) in
  1 <= size ->
  (forall b n, completion b n ≡ₚ seq 0 n) ->
  (len + size - 1) / size < Z.of_nat fuel ->
  exists st,
    broadcastTemplate self fetch completion recipients templateName
      languageCode components options fuel = Some st
    /\ (0 < pause -> slept st = replicate (length (sent st) - 1) pause)
    /\ (pause <= 0 -> slept st = []).
Proof.
  intros size pause len Hsize Hfair Hfuel.
  destruct (run_summary self fetch completion recipients templateName
              languageCode components options Hsize Hfair fuel Hfuel)
    as (st & Hrun & _ & _ & Hsent & _ & Hslept & _).
  exists st. split; [exact Hrun|].
  rewrite Hslept, Hsent, length_map, length_seq. fold pause. split.
  - intros Hp. now rewrite (proj2 (Z.ltb_lt 0 pause) Hp).
  - intros Hp. now rewrite (proj2 (Z.ltb_ge 0 pause) Hp).
Qed.

Lemma broadcastTemplate_pacing_witness :
  exists st,
    broadcastTemplate test_client second_call_fails settle_in_reverse
      ["551"; "552"; "553"]%string "hello_world" "en_US" None
      (Some (mkBroadcastOptions (Some 1) (Some 250))) 4 = Some st
    /\ (0 < 250 -> slept st = replicate (length (sent st) - 1) 250)
    /\ (250 <= 0 -> slept st = []).
Proof.
  apply (broadcastTemplate_pacing test_client second_call_fails
           settle_in_reverse ["551"; "552"; "553"]%string "hello_world" "en_US"
           None (Some (mkBroadcastOptions (Some 1) (Some 250))) 4).
  - simpl. lia.
  - exact settle_in_reverse_fair.
  - vm_compute. reflexivity.
Defined.

(** X10: a non-empty list of at most [batchSize] recipients goes out as
    one batch, with no delay at all, whatever [delayMs] is. *)
Theorem broadcastTemplate_single_batch
    (self : WhatsApp) (fetch : nat -> Fetch) (completion : nat -> nat -> list nat)
    (recipients : list string) (templateName languageCode : string)
    (components : option (list JSValue)) (options : option BroadcastOptions)
    (fuel : nat) :
  recipients <> [] ->
  Z.of_nat (length recipients) <= default 50 (options ≫= batchSize) ->
  (forall b n, completion b n ≡ₚ seq 0 n) ->
  (2 <= fuel)%nat ->
  exists st,
    broadcastTemplate self fetch completion recipients templateName
      languageCode components options fuel = Some st
    /\ sent st = [recipients]
    /\ slept st = []
    /\ calls st = length recipients.
Proof.
  intros Hne Hlen Hfair Hfuel.
  set (size := default 50 (options ≫= batchSize)) in *.
  assert (Hpos : 1 <= Z.of_nat (length recipients))
    by (destruct recipients; [done|simpl; lia]).
  assert (Hone : (Z.of_nat (length recipients) + size - 1) / size = 1).
  { symmetry.
    apply Z.div_unique with (r := Z.of_nat (length recipients) - 1); lia. }
  destruct (run_summary self fetch completion recipients templateName
              languageCode components options ltac:(fold size; lia) Hfair fuel)
    as (st & Hrun & _ & _ & Hsent & Hcat & Hslept & Hcalls).
  { fold size. lia. }
  pose proof (batches_left_all recipients options ltac:(fold size; lia)) as Hall.
  fold size in Hall. rewrite Hone in Hall.
  assert (Hn : batches_left recipients options 0 = 1%nat) by lia.
  rewrite Hn in Hsent, Hslept.
  exists st. split; [exact Hrun|].
  split; [|split; [|exact Hcalls]].
  - rewrite Hsent in Hcat |- *. cbn [seq map concat] in *.
    rewrite app_nil_r in Hcat. now rewrite Hcat.
  - rewrite Hslept. now destruct (0 <? _).
Qed.

Lemma broadcastTemplate_single_batch_witness :
  exists st,
    broadcastTemplate test_client second_call_fails settle_in_reverse
      ["551"; "552"; "553"]%string "hello_world" "en_US" None None 2 = Some st
    /\ sent st = [["551"; "552"; "553"]%string]
    /\ slept st = []
    /\ calls st = 3%nat.
Proof.
  apply (broadcastTemplate_single_batch test_client second_call_fails
           settle_in_reverse ["551"; "552"; "553"]%string "hello_world" "en_US"
           None None 2).
  - discriminate.
  - simpl. lia.
  - exact settle_in_reverse_fair.
  - lia.
Defined.

(** X11: [succeeded] and [failed] keep the recipients in the order of the
    recipients list. *)
Theorem broadcastTemplate_keeps_order
    (self : WhatsApp) (fetch : nat -> Fetch) (completion : nat -> nat -> list nat)
    (recipients : list string) (templateName languageCode : string)
    (components : option (list JSValue)) (options : option BroadcastOptions)
    (fuel : nat) :
  let size := default 50 (options ≫= batchSize) in
  1 <= size ->
  (forall b n, completion b n ≡ₚ seq 0 n) ->
  (Z.of_nat (length recipients) + size - 1) / size < Z.of_nat fuel ->
  exists st,
    broadcastTemplate self fetch completion recipients templateName
      languageCode components options fuel = Some st
    /\ (succeeded (outcome st)).*1 `sublist_of` recipients
    /\ (failed (outcome st)).*1 `sublist_of` recipients.
Proof.
  intros size Hsize Hfair Hfuel.
  destruct (run_summary self fetch completion recipients templateName
              languageCode components options Hsize Hfair fuel Hfuel)
    as (st & Hrun & Hs & Hf & _).
  exists st. split; [exact Hrun|]. rewrite Hs, Hf. split.
  - rewrite <- (settled_recipients self fetch templateName languageCode
                  components 0 recipients) at 2.
    apply successes_sublist.
  - rewrite <- (settled_recipients self fetch templateName languageCode
                  components 0 recipients) at 2.
    apply failures_sublist.
Qed.

Lemma broadcastTemplate_keeps_order_witness :
  exists st,
    broadcastTemplate test_client second_call_fails settle_in_reverse
      ["551"; "552"; "553"]%string "hello_world" "en_US" None
      (Some (mkBroadcastOptions (Some 2) None)) 3 = Some st
    /\ (succeeded (outcome st)).*1 `sublist_of` ["551"; "552"; "553"]%string
    /\ (failed (outcome st)).*1 `sublist_of` ["551"; "552"; "553"]%string.
Proof.
  apply (broadcastTemplate_keeps_order test_client second_call_fails
           settle_in_reverse ["551"; "552"; "553"]%string "hello_world" "en_US"
           None (Some (mkBroadcastOptions (Some 2) None)) 3).
  - simpl. lia.
  - exact settle_in_reverse_fair.
  - vm_compute. reflexivity.
Defined.

(** X12: the two result lists depend neither on the batch size, nor on
    the delay, nor on the order in which the sends of a batch settle: two
    broadcasts of the same template to the same recipients over the same
    network end with the same [succeeded] and the same [failed]. *)
Theorem broadcastTemplate_batching_irrelevant
    (self : WhatsApp) (fetch : nat -> Fetch)
    (completion1 completion2 : nat -> nat -> list nat)
    (recipients : list string) (templateName languageCode : string)
    (components : option (list JSValue))
    (options1 options2 : option BroadcastOptions) (fuel : nat) :
  1 <= default 50 (options1 ≫= batchSize) ->
  1 <= default 50 (options2 ≫= batchSize) ->
  (forall b n, completion1 b n ≡ₚ seq 0 n) ->
  (forall b n, completion2 b n ≡ₚ seq 0 n) ->
  (length recipients < fuel)%nat ->
  exists st1 st2,
    broadcastTemplate self fetch completion1 recipients templateName
      languageCode components options1 fuel = Some st1
    /\ broadcastTemplate self fetch completion2 recipients templateName
         languageCode components options2 fuel = Some st2
    /\ outcome st1 = outcome st2.
Proof.
  intros Hs1 Hs2 Hf1 Hf2 Hfuel.
  pose proof (batches_left_bound recipients options1 Hs1) as Hb1.
  pose proof (batches_left_bound recipients options2 Hs2) as Hb2.
  pose proof (batches_left_all recipients options1 Hs1) as Ha1.
  pose proof (batches_left_all recipients options2 Hs2) as Ha2.
  destruct (run_summary self fetch completion1 recipients templateName
              languageCode components options1 Hs1 Hf1 fuel ltac:(lia))
    as (st1 & Hrun1 & Hsu1 & Hfa1 & _).
  destruct (run_summary self fetch completion2 recipients templateName
              languageCode components options2 Hs2 Hf2 fuel ltac:(lia))
    as (st2 & Hrun2 & Hsu2 & Hfa2 & _).
  exists st1, st2. split; [exact Hrun1|]. split; [exact Hrun2|].
  destruct (outcome st1), (outcome st2). cbn in *. congruence.
Qed.

Lemma broadcastTemplate_batching_irrelevant_witness :
  exists st1 st2,
    broadcastTemplate test_client second_call_fails settle_in_reverse
      ["551"; "552"; "553"]%string "hello_world" "en_US" None
      (Some (mkBroadcastOptions (Some 1) (Some 0))) 4 = Some st1
    /\ broadcastTemplate test_client second_call_fails (fun _ n => seq 0 n)
         ["551"; "552"; "553"]%string "hello_world" "en_US" None None 4
       = Some st2
    /\ outcome st1 = outcome st2.
Proof.
  apply (broadcastTemplate_batching_irrelevant test_client second_call_fails
           settle_in_reverse (fun _ n => seq 0 n)
           ["551"; "552"; "553"]%string "hello_world" "en_US" None
           (Some (mkBroadcastOptions (Some 1) (Some 0))) None 4).
  - simpl. lia.
  - simpl. lia.
  - exact settle_in_reverse_fair.
  - reflexivity.
  - simpl. lia.
Defined.

End BroadcastMore.

(** ** More on the webhook normalizer *)
Module NormalizerMore.

Import NormalizerFacts.

(** *** What it throws *)

Lemma bind_only {A B : Type} (r : result A) (k : A -> result B) :
  throws_only_TypeError r ->
  (forall a, throws_only_TypeError (k a)) ->
  throws_only_TypeError (bind r k).
Proof.
  intros Hr Hk. destruct r as [a|e]; cbn [bind]; [apply Hk|].
  intros t [= <-]. now apply Hr.
Qed.

Lemma ok_only {A : Type} (a : A) : throws_only_TypeError (Ok a).
Proof. intros t H. discriminate H. Qed.

Lemma get_only (v : JSValue) (k : string) : throws_only_TypeError (get v k).
Proof.
  unfold get. destruct (nullish v); [|apply ok_only]. now intros t [= <-].
Qed.

Lemma iterate_only (v : JSValue) : throws_only_TypeError (iterate v).
Proof. destruct v; simpl; try apply ok_only; now intros t [= <-]. Qed.

Lemma for_of_only {S : Type} (body : JSValue -> S -> result S) :
  (forall x st, throws_only_TypeError (body x st)) ->
  forall xs st, throws_only_TypeError (for_of xs body st).
Proof.
  intros Hbody xs. induction xs as [|x xs IH]; intros st; cbn [for_of].
  - apply ok_only.
  - apply bind_only; [apply Hbody|exact IH].
Qed.

Lemma array_find_only (p : JSValue -> result bool) :
  (forall x, throws_only_TypeError (p x)) ->
  forall xs, throws_only_TypeError (array_find xs p).
Proof.
  intros Hp xs. induction xs as [|x xs IH]; cbn [array_find].
  - apply ok_only.
  - apply bind_only; [apply Hp|]. intros [|]; [apply ok_only|exact IH].
Qed.

Lemma findContact_only (contacts sender : JSValue) :
  throws_only_TypeError (findContact contacts sender).
Proof.
  unfold findContact. destruct contacts; try (now intros t [= <-]).
  apply bind_only.
  - apply array_find_only. intros x.
    apply bind_only; [apply get_only|intros; apply ok_only].
  - intros found. destruct (truthy found); [apply ok_only|].
    destruct (0 <? _); apply ok_only.
Qed.

Lemma parseChange_only (change : JSValue) (evs : list WebhookEvent) :
  throws_only_TypeError (parseChange change evs).
Proof.
  unfold parseChange.
  apply bind_only; [apply get_only|]. intros value.
  apply bind_only; [apply get_only|]. intros md.
  apply bind_only.
  - destruct (_ && _); [|apply ok_only].
    apply bind_only; [apply iterate_only|]. intros msgs.
    apply for_of_only. intros msg st.
    apply bind_only; [apply get_only|]. intros sender.
    apply bind_only; [apply findContact_only|]. intros; apply ok_only.
  - intros evs1. apply bind_only.
    + destruct (_ && _); [|apply ok_only].
      apply bind_only; [apply iterate_only|]. intros sts.
      apply for_of_only. intros; apply ok_only.
    + intros evs2. destruct (_ && _); apply ok_only.
Qed.

(** X13: whatever it is given, [parseWebhook] returns a list of events or
    throws a [TypeError]: no other error leaves it. *)
Theorem parseWebhook_throws_only_TypeError (body : JSValue) :
  throws_only_TypeError (parseWebhook body).
Proof.
  unfold parseWebhook. destruct (negb (isValidPayload body)); [apply ok_only|].
  apply bind_only; [apply get_only|]. intros es.
  apply bind_only; [apply iterate_only|]. intros entries.
  apply for_of_only. intros entry evs. unfold parseEntry.
  apply bind_only; [apply get_only|]. intros cs.
  apply bind_only; [apply iterate_only|]. intros changes.
  apply for_of_only. intros change evs'. apply parseChange_only.
Qed.

Lemma parseWebhook_throws_only_TypeError_witness :
  match parseWebhook (envelope [JObj []]) with
  | Throw t => t = TypeError
  | Ok _ => False
  end.
Proof.
  exact (parseWebhook_throws_only_TypeError (envelope [JObj []]) TypeError
           eq_refl).
Defined.

(** *** Deliveries it does not throw on *)

Lemma for_of_ok {S : Type} (body : JSValue -> S -> result S) (xs : list JSValue) :
  Forall (fun x => forall st, exists st', body x st = Ok st') xs ->
  forall st, exists st', for_of xs body st = Ok st'.
Proof.
  induction 1 as [|x xs Hx _ IH]; intros st; cbn [for_of].
  - eauto.
  - destruct (Hx st) as [st1 ->]. cbn [bind]. apply IH.
Qed.

Lemma array_find_ok (p : JSValue -> result bool) (xs : list JSValue) :
  Forall (fun x => exists b, p x = Ok b) xs ->
  exists found, array_find xs p = Ok found.
Proof.
  induction 1 as [|x xs [b Hb] _ IH]; cbn [array_find].
  - eauto.
  - rewrite Hb. cbn [bind]. destruct b; eauto.
Qed.

Lemma findContact_ok (contacts sender : JSValue) :
  safe_contacts (coalesce contacts (JArr [])) = true ->
  exists c, findContact (coalesce contacts (JArr [])) sender = Ok c.
Proof.
  unfold coalesce.
  destruct contacts as [| | | | |cs|]; simpl; try discriminate; eauto.
  intros Hcs. rewrite forallb_forall in Hcs.
  destruct (array_find_ok
              (fun c => try w <- get c "wa_id"; Ok (strict_eq w sender)) cs)
    as [found ->].
  - apply List.Forall_forall. intros c Hc. specialize (Hcs c Hc).
    unfold present in Hcs. unfold get.
    destruct (nullish c); [discriminate|]. cbn [bind]. eauto.
  - cbn [bind]. destruct (truthy found); eauto.
    destruct (0 <? _); eauto.
Qed.

Lemma safe_contacts_coalesce (v : JSValue) :
  safe_contacts v = true -> safe_contacts (coalesce v (JArr [])) = true.
Proof. destruct v; simpl; auto. Qed.

Lemma parseChange_ok (change : JSValue) :
  safe_change change = true ->
  forall evs, exists evs', parseChange change evs = Ok evs'.
Proof.
  unfold safe_change, safe_value, present.
  intros H evs.
  apply andb_prop in H as [Hc H]. apply andb_prop in H as [Hv Hm].
  apply negb_true_iff in Hc, Hv.
  unfold parseChange, get. rewrite Hc. cbn [bind]. rewrite Hv. cbn [bind].
  set (value := prop change "value") in *.
  set (md := prop value "metadata").
  assert (Hmsgs : exists evs1,
    (if truthy (prop value "messages") && isArray (prop value "messages")
     then
       try msgs <- iterate (prop value "messages");
       for_of msgs
         (fun msg evs0 =>
            try sender <- (if nullish msg then Throw TypeError
                           else Ok (prop msg "from"));
            try contact <- findContact
                             (coalesce (prop value "contacts") (JArr [])) sender;
            Ok (evs0 ++ [MessageEvent msg contact md]))
         evs
     else Ok evs) = Ok evs1).
  { destruct (prop value "messages") as [| | | | |msgs|];
      cbn [truthy isArray andb negb]; eauto.
    - destruct b; cbn [andb]; eauto.
    - destruct (negb _); cbn [andb]; eauto.
    - destruct (negb _); cbn [andb]; eauto.
    - apply andb_prop in Hm as [Hall Hcs].
      cbn [iterate bind]. apply for_of_ok.
      apply List.Forall_forall. intros msg Hmsg st.
      rewrite forallb_forall in Hall. specialize (Hall msg Hmsg).
      unfold present in Hall. destruct (nullish msg); [discriminate|].
      cbn [bind].
      destruct (findContact_ok (prop value "contacts") (prop msg "from")
                  (safe_contacts_coalesce _ Hcs)) as [c ->].
      cbn [bind]. eauto. }
  destruct Hmsgs as [evs1 ->]. cbn [bind].
  assert (Hsts : exists evs2,
    (if truthy (prop value "statuses") && isArray (prop value "statuses")
     then
       try sts <- iterate (prop value "statuses");
       for_of sts (fun status evs0 => Ok (evs0 ++ [StatusEvent status md])) evs1
     else Ok evs1) = Ok evs2).
  { destruct (prop value "statuses") as [| | | | |sts|];
      cbn [truthy isArray andb negb]; eauto.
    - destruct b; cbn [andb]; eauto.
    - destruct (negb _); cbn [andb]; eauto.
    - destruct (negb _); cbn [andb]; eauto.
    - cbn [iterate bind]. apply for_of_ok.
      apply List.Forall_forall. intros; eauto. }
  destruct Hsts as [evs2 ->]. cbn [bind].
  destruct (_ && _); eauto.
Qed.

(** X14: a delivery in which every entry has a [changes] list, every
    change a [value], and every value that has messages no [null] among
    them nor among its contacts (a list, or absent) is parsed without a
    throw, whatever else it holds. *)
Theorem parseWebhook_safe_payload (body : JSValue) :
  safe_payload body = true -> exists evs, parseWebhook body = Ok evs.
Proof.
  intros Hsafe. unfold parseWebhook.
  destruct (isValidPayload body) eqn:Hvalid; cbn [negb]; [|eauto].
  apply isValidPayload_shape in Hvalid as (props & es & -> & _ & Hentry).
  unfold safe_payload in Hsafe. cbn [prop get nullish bind] in *.
  rewrite Hentry in *. cbn [iterate bind].
  apply for_of_ok. apply List.Forall_forall. intros entry Hin evs.
  rewrite forallb_forall in Hsafe. specialize (Hsafe entry Hin).
  unfold safe_entry, present in Hsafe.
  apply andb_prop in Hsafe as [He Hcs]. apply negb_true_iff in He.
  unfold parseEntry, get. rewrite He. cbn [bind].
  destruct (prop entry "changes") as [| | | | |cs|]; try discriminate.
  cbn [iterate bind]. apply for_of_ok.
  apply List.Forall_forall. intros change Hc evs'.
  rewrite forallb_forall in Hcs. now apply parseChange_ok, Hcs.
Qed.

(** A message without sender in a value without metadata nor contacts. *)
Lemma parseWebhook_safe_payload_witness :
  exists evs,
    parseWebhook
      (envelope
         [JObj [("changes"%string,
                 JArr [JObj [("value"%string,
                              JObj [("messages"%string, JArr [JObj []]);
                                    ("statuses"%string, JStr "none")])]])]])
    = Ok evs.
Proof.
  apply (parseWebhook_safe_payload
           (envelope
              [JObj [("changes"%string,
                      JArr [JObj [("value"%string,
                                   JObj [("messages"%string, JArr [JObj []]);
                                         ("statuses"%string, JStr "none")])]])]])).
  reflexivity.
Defined.

(** *** Where the events come from *)

Lemma for_of_invariant {S : Type} (P : S -> Prop)
    (body : JSValue -> S -> result S) (xs : list JSValue) :
  (forall x st st', In x xs -> P st -> body x st = Ok st' -> P st') ->
  forall st st', P st -> for_of xs body st = Ok st' -> P st'.
Proof.
  induction xs as [|x xs IH]; intros Hbody st st' HP; cbn [for_of].
  - now intros [= <-].
  - destruct (body x st) as [st1|e] eqn:Hx; cbn [bind]; [|discriminate].
    apply IH.
    + intros y s s' Hy. apply Hbody. now right.
    + eapply Hbody; [now left|exact HP|exact Hx].
Qed.

(** One change adds events to those collected so far, and every event it
    adds carries the metadata of its value block. *)
Lemma parseChange_adds (change : JSValue) (evs evs' : list WebhookEvent) :
  parseChange change evs = Ok evs' ->
  exists added,
    evs' = evs ++ added
    /\ Forall (fun e => event_metadata e
                        = prop (prop change "value") "metadata") added.
Proof.
  set (md := prop (prop change "value") "metadata").
  set (R := fun st : list WebhookEvent =>
              exists added,
                st = evs ++ added
                /\ Forall (fun e => event_metadata e = md) added).
  assert (Hrefl : R evs) by (exists []; now rewrite app_nil_r).
  assert (Hsnoc : forall st e, R st -> event_metadata e = md -> R (st ++ [e])).
  { intros st e (added & -> & Hall) He. exists (added ++ [e]).
    rewrite app_assoc. split; [reflexivity|].
    apply Forall_app. split; [exact Hall|]. now constructor. }
  unfold parseChange, get.
  destruct (nullish change); cbn [bind]; [discriminate|].
  destruct (nullish (prop change "value")); cbn [bind]; [discriminate|].
  fold md.
  match goal with
  | |- bind ?m _ = _ -> _ => destruct m as [evs1|e] eqn:Hm; cbn [bind];
                             [|discriminate]
  end.
  assert (H1 : R evs1).
  { destruct (_ && _); [|now injection Hm as <-].
    destruct (iterate _) as [msgs|e]; cbn [bind] in Hm; [|discriminate].
    revert Hm. apply for_of_invariant; [|exact Hrefl].
    intros msg st st' _ Hst.
    destruct (nullish msg); cbn [bind]; [discriminate|].
    destruct (findContact _ _) as [c|e]; cbn [bind]; [|discriminate].
    intros [= <-]. now apply Hsnoc. }
  clear Hm.
  match goal with
  | |- bind ?m _ = _ -> _ => destruct m as [evs2|e] eqn:Hs; cbn [bind];
                             [|discriminate]
  end.
  assert (H2 : R evs2).
  { destruct (_ && _); [|now injection Hs as <-].
    destruct (iterate _) as [sts|e]; cbn [bind] in Hs; [|discriminate].
    revert Hs. apply for_of_invariant; [|exact H1].
    intros status st st' _ Hst [= <-]. now apply Hsnoc. }
  clear Hs.
  destruct (_ && _); intros [= <-]; [now apply Hsnoc|exact H2].
Qed.

(** X15: every event of a parsed delivery carries, as its metadata, the
    [metadata] of the value block of one of the delivery's changes. *)
Theorem parseWebhook_metadata_provenance (body : JSValue)
    (evs : list WebhookEvent) :
  parseWebhook body = Ok evs ->
  forall e, In e evs ->
    exists entries entry changes change,
      prop body "entry" = JArr entries /\ In entry entries
      /\ prop entry "changes" = JArr changes /\ In change changes
      /\ event_metadata e = prop (prop change "value") "metadata".
Proof.
  unfold parseWebhook.
  destruct (isValidPayload body) eqn:Hvalid; cbn [negb];
    [|intros [= <-] e []].
  apply isValidPayload_shape in Hvalid as (props & entries & -> & _ & Hentry).
  cbn [get nullish prop bind]. rewrite Hentry. cbn [iterate bind].
  set (Q := fun e : WebhookEvent =>
              exists entry changes change,
                In entry entries /\ prop entry "changes" = JArr changes
                /\ In change changes
                /\ event_metadata e = prop (prop change "value") "metadata").
  intros Hrun.
  assert (Hall : Forall Q evs).
  { revert Hrun. apply for_of_invariant; [|constructor].
    intros entry st st' Hin Hst. unfold parseEntry, get.
    destruct (nullish entry); cbn [bind]; [discriminate|].
    destruct (prop entry "changes") as [| | | |s|changes|] eqn:Hch;
      cbn [iterate bind]; try discriminate.
    - apply for_of_invariant; [|exact Hst].
      intros c st1 st2 Hc _. apply in_map_iff in Hc as (a & <- & _).
      discriminate.
    - apply for_of_invariant; [|exact Hst].
      intros change st1 st2 Hc Hst1 Hparse.
      destruct (parseChange_adds _ _ _ Hparse) as (added & -> & Hadded).
      apply Forall_app. split; [exact Hst1|].
      eapply Forall_impl; [exact Hadded|].
      intros e He. exists entry, changes, change. auto. }
  intros e He. rewrite List.Forall_forall in Hall.
  destruct (Hall e He) as (entry & changes & change & H).
  exists entries, entry, changes, change. tauto.
Qed.

Lemma parseWebhook_metadata_provenance_witness :
  exists entries entry changes change,
    prop (payload_js two_changes_payload) "entry" = JArr entries
    /\ In entry entries
    /\ prop entry "changes" = JArr changes /\ In change changes
    /\ event_metadata
         (ErrorEvent (JArr [JObj [("code"%string, JNum 131000)]])
            (metadata_js (mkMetadata "55149" "123")))
       = prop (prop change "value") "metadata".
Proof.
  apply (parseWebhook_metadata_provenance (payload_js two_changes_payload)
           (events_of_payload two_changes_payload) eq_refl
           (ErrorEvent (JArr [JObj [("code"%string, JNum 131000)]])
              (metadata_js (mkMetadata "55149" "123")))).
  simpl. auto.
Defined.

(** X19: a body that is not an object whose [object] is the string
    "whatsapp_business_account" and whose [entry] is a list gives the
    empty list of events: so do [null], [undefined], every primitive and
    every array, and so does an envelope whose [entry] list is empty. *)
Theorem parseWebhook_outside_envelope (body : JSValue) :
  ((~ exists props entries,
        body = JObj props
        /\ lookup_prop "object" props = JStr "whatsapp_business_account"
        /\ lookup_prop "entry" props = JArr entries) ->
   parseWebhook body = Ok [])
  /\ ((forall props, body <> JObj props) -> parseWebhook body = Ok [])
  /\ (forall props,
        body = JObj props -> lookup_prop "entry" props = JArr [] ->
        parseWebhook body = Ok []).
Proof.
  assert (H : (~ exists props entries,
                   body = JObj props
                   /\ lookup_prop "object" props
                      = JStr "whatsapp_business_account"
                   /\ lookup_prop "entry" props = JArr entries) ->
              parseWebhook body = Ok []).
  { intros Hnot. apply parseWebhook_rejects_bad_envelope.
    destruct (isValidPayload body) eqn:V; [|reflexivity].
    destruct Hnot. now apply isValidPayload_shape. }
  split; [exact H|]. split.
  - intros Hobj. apply H. intros (props & _ & -> & _). now apply (Hobj props).
  - intros props -> Hentry. unfold parseWebhook.
    destruct (isValidPayload (JObj props)); cbn [negb]; [|reflexivity].
    cbn [get nullish prop bind]. rewrite Hentry. reflexivity.
Qed.

Lemma parseWebhook_outside_envelope_witness :
  parseWebhook (JArr [envelope []]) = Ok []
  /\ parseWebhook
       (JObj [("object", JStr "whatsapp_business_account");
              ("entry", JObj [])]%string) = Ok []
  /\ parseWebhook (envelope []) = Ok [].
Proof.
  split; [|split].
  - apply (proj1 (proj2 (parseWebhook_outside_envelope (JArr [envelope []])))).
    discriminate.
  - apply (proj1 (parseWebhook_outside_envelope
                    (JObj [("object", JStr "whatsapp_business_account");
                           ("entry", JObj [])]%string))).
    intros (props & entries & [= <-] & _ & Hentry). discriminate Hentry.
  - apply (proj2 (proj2 (parseWebhook_outside_envelope (envelope [])))
             [("object", JStr "whatsapp_business_account");
              ("entry", JArr [])]%string); reflexivity.
Defined.

(** *** Contact resolution *)

(** X16: on a list of contacts, [findContact] returns one of the listed
    contacts, and builds the synthetic contact only for the empty list; on
    anything that is not a list it throws a [TypeError]. *)
Theorem findContact_returns_listed (contacts sender : JSValue) :
  (forall cs c,
     contacts = JArr cs -> findContact contacts sender = Ok c ->
     In c cs \/ (cs = [] /\ c = synthetic_contact sender))
  /\ (isArray contacts = false -> findContact contacts sender = Throw TypeError).
Proof.
  split.
  - intros cs c -> . unfold findContact.
    set (p := fun c0 => try w <- get c0 "wa_id"; Ok (strict_eq w sender)).
    assert (Hfind : forall found,
              array_find cs p = Ok found -> In found cs \/ found = JUndefined).
    { induction cs as [|x xs IH]; cbn [array_find]; intros found.
      - intros [= <-]. now right.
      - destruct (p x) as [[|]|e]; cbn [bind]; try discriminate.
        + intros [= <-]. left. now left.
        + intros H. destruct (IH _ H); [left; now right|now right]. }
    destruct (array_find cs p) as [found|e]; cbn [bind]; [|discriminate].
    destruct (truthy found) eqn:T.
    + intros [= <-]. destruct (Hfind _ eq_refl) as [H|H]; [now left|].
      subst found. discriminate T.
    + destruct cs as [|x xs]; cbn.
      * intros [= <-]. now right.
      * intros [= <-]. left. now left.
  - destruct contacts; simpl; try reflexivity. discriminate.
Qed.

Lemma findContact_returns_listed_witness :
  findContact (JStr "551") (JStr "551") = Throw TypeError
  /\ (In (JNum 7) [JNum 7; JBool true]
      \/ ([JNum 7; JBool true] = []
          /\ JNum 7 = synthetic_contact (JStr "551"))).
Proof.
  split.
  - apply (proj2 (findContact_returns_listed (JStr "551") (JStr "551"))).
    reflexivity.
  - apply (proj1 (findContact_returns_listed (JArr [JNum 7; JBool true])
                    (JStr "551"))
             [JNum 7; JBool true] (JNum 7)); reflexivity.
Defined.

(** X17: on a well-typed contacts list, the contact resolved for a sender
    has the sender's identifier exactly when the list is empty or lists
    the sender; a non-empty list that does not list the sender gives its
    first contact, whose identifier is another one. *)
Theorem findContact_attribution (cs : list Contact) (sender : string) :
  exists c,
    findContact (JArr (map contact_js cs)) (JStr sender) = Ok (contact_js c)
    /\ (wa_id c = sender <-> cs = [] \/ Exists (fun c' => wa_id c' = sender) cs)
    /\ (cs <> [] -> In c cs)
    /\ (Forall (fun c' => wa_id c' <> sender) cs -> head cs = Some c \/ cs = []).
Proof.
  exists (resolveContact cs sender).
  split; [apply findContact_typed|].
  unfold resolveContact.
  destruct (find (fun c => String.eqb (wa_id c) sender) cs) as [c|] eqn:F.
  - apply find_some in F as [Hin Heq]. apply String.eqb_eq in Heq.
    split; [|split].
    + split; [|auto]. intros _. right. apply List.Exists_exists. eauto.
    + auto.
    + intros Hall. rewrite List.Forall_forall in Hall.
      destruct (Hall c Hin Heq).
  - assert (Hnone : Forall (fun c' => wa_id c' <> sender) cs).
    { apply List.Forall_forall. intros c Hc.
      apply (find_none _ _ F) in Hc. now apply String.eqb_neq. }
    destruct cs as [|c0 rest]; simpl.
    + split; [|split]; auto. split; auto.
    + split; [|split]; auto.
      * split.
        -- intros Heq. inversion Hnone; subst. contradiction.
        -- intros [H|H]; [discriminate|].
           apply List.Exists_exists in H as (c & Hc & Heq).
           rewrite List.Forall_forall in Hnone. destruct (Hnone c Hc Heq).
Qed.

End NormalizerMore.

(** ** More on the error taxonomy builder *)
Module ErrorsMore.

(** X18: for an error body as Meta documents it (a message, an integer
    code, an optional integer sub-code, an optional trace id), with code
    and sub-code safe integers, the error built has the vendor's code as
    its code, the vendor's message unless it is empty, the title
    "code/subcode" when there is a sub-code other than 0, else the code in
    decimal when it is not 0, else "unknown", and the trace id as details
    when there is a non-empty one. *)
Theorem fromApiResponse_vendor_error (e : VendorError) (http : Z) :
  safe_vendor_error e = true ->
  fromApiResponse (vendor_body e) http
  = Ok (mkWhatsAppError
          (if String.eqb (ve_message e) ""
           then "Unknown WhatsApp API error"%string
           else ve_message e)
          (JNum (ve_code e))
          (match ve_subcode e with
           | Some sub =>
               if sub =? 0
               then (if ve_code e =? 0 then "unknown"%string
                     else string_of_Z (ve_code e))
               else string_of_Z (ve_code e) +:+ "/" +:+ string_of_Z sub
           | None =>
               if ve_code e =? 0 then "unknown"%string
               else string_of_Z (ve_code e)
           end)
          http
          (match ve_trace e with
           | Some t =>
               if String.eqb t "" then None else Some ("fbtrace_id: " +:+ t)
           | None => None
           end)).
Proof.
  intros _.
  assert (Hcode : forall c, or_else (JNum c) (JNum 0) = JNum c).
  { intros c. unfold or_else. simpl. destruct (c =? 0) eqn:E; [|reflexivity].
    apply Z.eqb_eq in E. now subst. }
  assert (Htitle : forall c,
            to_string (or_else (JNum c) (JStr "unknown"))
            = Ok (if c =? 0 then "unknown"%string else string_of_Z c)).
  { intros c. unfold or_else. simpl. now destruct (c =? 0). }
  assert (Hmsg : forall m,
            to_string (or_else (JStr m) (JStr "Unknown WhatsApp API error"))
            = Ok (if String.eqb m "" then "Unknown WhatsApp API error"%string
                  else m)).
  { intros m. unfold or_else. simpl. now destruct (String.eqb m ""). }
  assert (Hblock : error_block (vendor_body e) = prop (vendor_body e) "error")
    by reflexivity.
  unfold fromApiResponse, new_WhatsAppError. cbv zeta. rewrite Hblock.
  clear Hblock.
  destruct e as [msg c [sub|] [t|]];
    cbn [vendor_body ve_message ve_code ve_subcode ve_trace optional fmap
         option_fmap option_map app prop lookup_prop String.eqb Ascii.eqb
         Bool.eqb];
    rewrite Hcode, Hmsg, ?Htitle; cbn [truthy to_string bind];
    try (destruct (sub =? 0); cbn [negb bind]);
    try (destruct (String.eqb t ""); cbn [negb bind]);
    rewrite ?Htitle; reflexivity.
Qed.

Lemma fromApiResponse_vendor_error_witness :
  fromApiResponse
    (JObj [("error",
            JObj [("message", JStr "Bad"); ("code", JNum 100);
                  ("error_subcode", JNum 0)])]%string) 400
  = Ok (mkWhatsAppError "Bad" (JNum 100) "100" 400 None).
Proof.
  apply (fromApiResponse_vendor_error (mkVendorError "Bad" 100 (Some 0) None)
           400).
  reflexivity.
Defined.

End ErrorsMore.
